(** * TWS backend: a shallow embedding of the REST handlers

    The server is a single Express application: eleven routes, two
    middlewares and three Mongoose collections (users, signals, feed
    posts).  Every handler is a validate / look up / persist / respond
    sequence, so it is embedded as a pure function from the request, the
    values the runtime supplies (clock, generated ObjectId, bcrypt salt) and
    the store to a response and a new store.  The libraries the handlers
    call (jsonwebtoken, bcryptjs, validator, the Date parser, the ObjectId
    cast) are collected in the class [Externals]. *)

From Stdlib Require Import ZArith Ascii String DecimalString HexadecimalString.
From stdpp Require Import base option list countable strings sorting.

Local Open Scope Z_scope.

(** ** Data model (the three Mongoose schemas) *)

(** A 12-byte ObjectId, as the number it spells. *)
Definition ObjectId := N.

(** Milliseconds since the epoch ([Date.now()]). *)
Definition Date := Z.

(** [role: { type: String, enum: ["user", "admin"], default: "user" }] *)
Inductive Role := RUser | RAdmin.

(** [type: { type: String, enum: ["free", "premium"], required: true }] *)
Inductive SignalType := Free | Premium.

Global Instance Role_eq_dec : EqDecision Role.
Proof. solve_decision. Defined.

Global Instance SignalType_eq_dec : EqDecision SignalType.
Proof. solve_decision. Defined.

Record User := mkUser {
  u_id : ObjectId;
  u_email : string;
  u_password : string;
  u_isPremium : bool;
  u_role : Role;
  u_createdAt : Date
}.

Record Signal := mkSignal {
  s_id : ObjectId;
  s_title : option string;
  s_description : option string;
  s_type : SignalType;
  s_createdAt : Date;
  s_createdBy : ObjectId
}.

Record Comment := mkComment {
  c_id : ObjectId;
  c_user : ObjectId;
  c_text : string;
  c_createdAt : Date
}.

Record Feed := mkFeed {
  f_id : ObjectId;
  f_imageUrl : string;
  f_caption : string;
  f_likes : list ObjectId;
  f_comments : list Comment;
  f_createdAt : Date;
  f_createdBy : ObjectId
}.

(** The database: one list per collection, in insertion order. *)
Record Store := mkStore {
  users : list User;
  signals : list Signal;
  feeds : list Feed
}.

Definition emptyStore : Store := mkStore [] [] [].

(** What [populate(path, "email")] leaves in place of a reference: the
    referenced user's [_id] and [email], or [null] when it is gone. *)
Definition Populated := option (ObjectId * string).

Record SignalView := mkSignalView {
  sv_id : ObjectId;
  sv_title : option string;
  sv_description : option string;
  sv_type : SignalType;
  sv_createdAt : Date;
  sv_createdBy : Populated
}.

Record CommentView := mkCommentView {
  cv_id : ObjectId;
  cv_user : Populated;
  cv_text : string;
  cv_createdAt : Date
}.

Record FeedView := mkFeedView {
  fv_id : ObjectId;
  fv_imageUrl : string;
  fv_caption : string;
  fv_likes : list ObjectId;
  fv_comments : list CommentView;
  fv_createdAt : Date;
  fv_createdBy : Populated
}.

(** ** Requests and responses *)

(** One express-validator error entry: the field and its message. *)
Record FieldError := mkFieldError { fe_path : string; fe_msg : string }.

(** The JSON bodies the routes send.  In [BAuthUser] the last component is
    the [isPremium] key of the [user] object; [None] is a key whose value
    was [undefined], which [res.json] leaves out. *)
Inductive Body :=
  | BError (error : string)
  | BErrors (errors : list FieldError)
  | BMessage (message : string)
  | BAuthUser (token : string) (id : ObjectId) (email : string)
              (isPremium : option bool)
  | BAuthAdmin (token : string) (id : ObjectId) (email : string)
  | BSignal (s : Signal)
  | BSignals (l : list SignalView)
  | BFeed (f : Feed)
  | BFeeds (l : list FeedView).

Record Response := mkResponse { status : Z; body : Body }.

(** What the runtime hands to a handler besides the request: the clock, the
    ObjectId generated by [new Model(...)] (or for a pushed subdocument) and
    the salt drawn by [bcrypt.hash]. *)
Record Env := mkEnv { now : Date; fresh_id : ObjectId; salt : string }.

Inductive Request :=
  | PostUserSignup (email password : string) (isPremium : option bool)
  | PostAdminSignup (email password : string)
  | PostUserLogin (email password : string)
  | PostAdminLogin (email password : string)
  | PostLogout
  | PostSignals (authorization : option string)
                (title description : option string) (type : string)
  | GetSignals (authorization : option string) (since : option string)
  | PostFeed (authorization : option string) (imageUrl caption : option string)
  | GetFeed (authorization : option string) (since : option string)
  | PostFeedLike (authorization : option string) (id : string)
  | PostFeedComment (authorization : option string) (id : string)
                    (text : option string).

(** ** JavaScript helpers *)

(** Truthiness of a body or query field that is a string or absent. *)
Definition truthy (v : option string) : bool :=
  match v with
  | Some (String _ _) => true
  | _ => false
  end.

(** The string behind a truthy field. *)
Definition str (v : option string) : string := default "" v.

(** [strip_prefix pat s] is what follows [pat] when [s] starts with it. *)
Fixpoint strip_prefix (pat s : string) : option string :=
  match pat with
  | EmptyString => Some s
  | String a pat' =>
      match s with
      | EmptyString => None
      | String b s' => if Ascii.eqb a b then strip_prefix pat' s' else None
      end
  end.

(** [s.replace(pat, rep)] with a string pattern: the first occurrence only. *)
Fixpoint replace_first (pat rep s : string) : string :=
  match strip_prefix pat s with
  | Some rest => rep +:+ rest
  | None =>
      match s with
      | EmptyString => EmptyString
      | String c s' => String c (replace_first pat rep s')
      end
  end.

(** [isLength({ min })] *)
Definition isLength_min (n : nat) (s : string) : bool :=
  (n <=? String.length s)%nat.

(** [notEmpty()] *)
Definition notEmpty (s : string) : bool :=
  match s with EmptyString => false | _ => true end.

(** ** External collaborators *)

(** The payload [jwt.sign] puts in a token: the caller's claim plus the
    issue and expiry times, in seconds. *)
Record JwtPayload := mkJwtPayload { userId : ObjectId; iat : Z; exp : Z }.

Class Externals := {
  (** validator.js [isEmail] *)
  isEmail : string -> bool;
  (** [bcrypt.hash(password, 10)] for the salt that was drawn *)
  bcrypt_hash : string -> string -> string;
  (** [bcrypt.compare(password, hash)] *)
  bcrypt_compare : string -> string -> bool;
  (** the signed compact serialisation of a payload under a secret *)
  jws_sign : JwtPayload -> string -> string;
  (** signature check and decoding; [None] when the token is malformed or
      was not signed with the secret *)
  jws_verify : string -> string -> option JwtPayload;
  (** [new Date(s)]; [None] is Invalid Date *)
  parseDate : string -> option Date;
  (** Mongoose's cast of a string to an ObjectId; [None] is a CastError *)
  castObjectId : string -> option ObjectId;
  (** [process.env.JWT_SECRET] *)
  JWT_SECRET : string
}.

(** ** Exceptions

    Everything a handler awaits can reject; the handlers' [try]/[catch]
    turns any rejection into a 500. *)

Inductive Thrown :=
  | CastError
  | DuplicateKeyError
  | JsonWebTokenError
  | TokenExpiredError.

Inductive Result (A : Type) :=
  | Ok (a : A)
  | Throw (e : Thrown).

Arguments Ok {A} a.
Arguments Throw {A} e.

Definition bind {A B} (r : Result A) (k : A -> Result B) : Result B :=
  match r with
  | Ok a => k a
  | Throw e => Throw e
  end.

Notation "'let*' x ':=' r 'in' k" := (bind r (fun x => k))
  (at level 10, x pattern, r at level 100, k at level 200).

Definition jsonError (code : Z) (msg : string) : Response :=
  mkResponse code (BError msg).

(** [catch (error) { res.status(500).json({ error: "Server error" }) }]:
    a rejected await leaves the store as the handler found it. *)
Definition catch500 (st : Store) (r : Result (Response * Store))
  : Response * Store :=
  match r with
  | Ok out => out
  | Throw _ => (jsonError 500 "Server error", st)
  end.

(** ** The store operations the handlers use *)

Definition set_users (st : Store) (us : list User) : Store :=
  mkStore us (signals st) (feeds st).

Definition set_signals (st : Store) (ss : list Signal) : Store :=
  mkStore (users st) ss (feeds st).

Definition set_feeds (st : Store) (fs : list Feed) : Store :=
  mkStore (users st) (signals st) fs.

(** [User.findOne({ email })] *)
Definition findUserByEmail (email : string) (us : list User) : option User :=
  snd <$> list_find (fun u => u_email u = email) us.

(** [User.findOne({ email, role })] *)
Definition findUserByEmailRole (email : string) (role : Role)
    (us : list User) : option User :=
  snd <$> list_find (fun u => u_email u = email /\ u_role u = role) us.

(** [User.findById(id)] *)
Definition findUserById (id : ObjectId) (us : list User) : option User :=
  snd <$> list_find (fun u => u_id u = id) us.

(** [user.save()] of a new document: the [_id] index and the unique index
    on [email] reject a duplicate. *)
Definition insertUser (u : User) (us : list User) : Result (list User) :=
  if decide (Exists (fun v => u_id v = u_id u \/ u_email v = u_email u) us)
  then Throw DuplicateKeyError
  else Ok (us ++ [u]).

(** [signal.save()] of a new document. *)
Definition insertSignal (s : Signal) (ss : list Signal)
  : Result (list Signal) :=
  if decide (Exists (fun v => s_id v = s_id s) ss)
  then Throw DuplicateKeyError
  else Ok (ss ++ [s]).

(** [feedPost.save()] of a new document. *)
Definition insertFeed (f : Feed) (fs : list Feed) : Result (list Feed) :=
  if decide (Exists (fun v => f_id v = f_id f) fs)
  then Throw DuplicateKeyError
  else Ok (fs ++ [f]).

(** [Feed.findById(req.params.id)]: the string is cast first; the document
    comes back with its position, which [save] writes to. *)
Definition findFeedById `{Externals} (id : string) (fs : list Feed)
  : Result (option (nat * Feed)) :=
  match castObjectId id with
  | None => Throw CastError
  | Some oid => Ok (list_find (fun f => f_id f = oid) fs)
  end.

(** [populate(path, "email")] of one reference. *)
Definition populate (us : list User) (ref : ObjectId) : Populated :=
  (fun u => (u_id u, u_email u)) <$> findUserById ref us.

Definition populateSignal (us : list User) (s : Signal) : SignalView :=
  mkSignalView (s_id s) (s_title s) (s_description s) (s_type s)
               (s_createdAt s) (populate us (s_createdBy s)).

Definition populateComment (us : list User) (c : Comment) : CommentView :=
  mkCommentView (c_id c) (populate us (c_user c)) (c_text c) (c_createdAt c).

Definition populateFeed (us : list User) (f : Feed) : FeedView :=
  mkFeedView (f_id f) (f_imageUrl f) (f_caption f) (f_likes f)
             (populateComment us <$> f_comments f)
             (f_createdAt f) (populate us (f_createdBy f)).

(** [sort({ createdAt: -1 })]: newest first.  The order the database
    gives to documents of equal [createdAt] is its own; the sort used here
    is one such order. *)
Definition newerSignal (a b : Signal) : Prop := s_createdAt b <= s_createdAt a.
Definition newerFeed (a b : Feed) : Prop := f_createdAt b <= f_createdAt a.

Global Instance newerSignal_dec a b : Decision (newerSignal a b).
Proof. unfold newerSignal. apply _. Defined.

Global Instance newerFeed_dec a b : Decision (newerFeed a b).
Proof. unfold newerFeed. apply _. Defined.

(** The filter object handed to [Signal.find]: [{}], [{ type: "free" }],
    each possibly with [createdAt: { $gt: date }]. *)
Record SignalQuery := mkSignalQuery {
  q_type : option SignalType;
  q_createdAt_gt : option Date
}.

Definition signalMatches (q : SignalQuery) (s : Signal) : Prop :=
  from_option (fun t => s_type s = t) True (q_type q) /\
  from_option (fun d => d < s_createdAt s) True (q_createdAt_gt q).

Global Instance signalMatches_dec q s : Decision (signalMatches q s).
Proof.
  destruct q as [[t|] [d|]]; unfold signalMatches; simpl; apply _.
Defined.

Definition feedMatches (gt : option Date) (f : Feed) : Prop :=
  from_option (fun d => d < f_createdAt f) True gt.

Global Instance feedMatches_dec gt f : Decision (feedMatches gt f).
Proof. destruct gt; unfold feedMatches; simpl; apply _. Defined.

(** [if (since) query.createdAt = { $gt: new Date(since) }]: an absent or
    empty [since] adds nothing; an Invalid Date fails the query's cast. *)
Definition sinceFilter `{Externals} (since : option string)
  : Result (option Date) :=
  if truthy since then
    match parseDate (str since) with
    | Some d => Ok (Some d)
    | None => Throw CastError
    end
  else Ok None.

(** [likes.indexOf(id)]; [None] is -1. *)
Definition indexOf (id : ObjectId) (likes : list ObjectId) : option nat :=
  fst <$> list_find (fun x => x = id) likes.

(** ** Tokens *)

(** [jwt.sign({ userId }, secret, { expiresIn: "1d" })] *)
Definition jwt_sign `{Externals} (now : Date) (uid : ObjectId) : string :=
  let iat := now / 1000 in
  jws_sign (mkJwtPayload uid iat (iat + 86400)) JWT_SECRET.

(** [jwt.verify(token, secret)]: signature, then expiry. *)
Definition jwt_verify `{Externals} (now : Date) (token : string)
  : Result JwtPayload :=
  match jws_verify token JWT_SECRET with
  | None => Throw JsonWebTokenError
  | Some decoded =>
      if exp decoded <=? now / 1000 then Throw TokenExpiredError
      else Ok decoded
  end.

(** ** Middleware *)

(** [authMiddleware]: either the response it sends, or the user it puts in
    [req.user] before calling [next()]. *)
Definition authMiddleware `{Externals} (now : Date)
    (authorization : option string) (st : Store) : Response + User :=
  match replace_first "Bearer " "" <$> authorization with
  | None | Some EmptyString => inl (jsonError 401 "Authentication required")
  | Some token =>
      match jwt_verify now token with
      | Throw _ => inl (jsonError 401 "Invalid token")
      | Ok decoded =>
          match findUserById (userId decoded) (users st) with
          | None => inl (jsonError 401 "User not found")
          | Some user => inr user
          end
      end
  end.

(** [adminMiddleware]: the response it sends, or [None] for [next()]. *)
Definition adminMiddleware (user : User) : option Response :=
  if decide (u_role user <> RAdmin)
  then Some (jsonError 403 "Admin access required")
  else None.

(** [validateSignup] and [validateLogin], as [validationResult(req).array()]. *)
Definition validateSignup `{Externals} (email password : string)
  : list FieldError :=
  (if isEmail email then [] else [mkFieldError "email" "Invalid email"]) ++
  (if isLength_min 6 password then []
   else [mkFieldError "password" "Password must be at least 6 characters"]).

Definition validateLogin `{Externals} (email password : string)
  : list FieldError :=
  (if isEmail email then [] else [mkFieldError "email" "Invalid email"]) ++
  (if notEmpty password then []
   else [mkFieldError "password" "Password is required"]).

Definition isEmpty {A} (l : list A) : bool :=
  match l with [] => true | _ => false end.

(** ** Route handlers *)

(** [POST /api/auth/user/signup] *)
Definition userSignup `{Externals} (env : Env) (email password : string)
    (isPremium : option bool) (st : Store) : Response * Store :=
  catch500 st (
    let errors := validateSignup email password in
    if negb (isEmpty errors) then Ok (mkResponse 400 (BErrors errors), st)
    else
      match findUserByEmail email (users st) with
      | Some _ => Ok (jsonError 400 "Email already exists", st)
      | None =>
          let hashedPassword := bcrypt_hash (salt env) password in
          let user := mkUser (fresh_id env) email hashedPassword
                             (default false isPremium) RUser (now env) in
          let* saved := insertUser user (users st) in
          let token := jwt_sign (now env) (u_id user) in
          Ok (mkResponse 201 (BAuthUser token (u_id user) email isPremium),
              set_users st saved)
      end).

(** [POST /api/auth/admin/signup] *)
Definition adminSignup `{Externals} (env : Env) (email password : string)
    (st : Store) : Response * Store :=
  catch500 st (
    let errors := validateSignup email password in
    if negb (isEmpty errors) then Ok (mkResponse 400 (BErrors errors), st)
    else
      match findUserByEmail email (users st) with
      | Some _ => Ok (jsonError 400 "Email already exists", st)
      | None =>
          let hashedPassword := bcrypt_hash (salt env) password in
          let user := mkUser (fresh_id env) email hashedPassword
                             false RAdmin (now env) in
          let* saved := insertUser user (users st) in
          let token := jwt_sign (now env) (u_id user) in
          Ok (mkResponse 201 (BAuthAdmin token (u_id user) email),
              set_users st saved)
      end).

(** [POST /api/auth/user/login] *)
Definition userLogin `{Externals} (env : Env) (email password : string)
    (st : Store) : Response * Store :=
  catch500 st (
    let errors := validateLogin email password in
    if negb (isEmpty errors) then Ok (mkResponse 400 (BErrors errors), st)
    else
      match findUserByEmailRole email RUser (users st) with
      | None => Ok (jsonError 401 "Invalid credentials", st)
      | Some user =>
          let isMatch := bcrypt_compare password (u_password user) in
          if negb isMatch then Ok (jsonError 401 "Invalid credentials", st)
          else
            let token := jwt_sign (now env) (u_id user) in
            Ok (mkResponse 200
                  (BAuthUser token (u_id user) email
                             (Some (u_isPremium user))), st)
      end).

(** [POST /api/auth/admin/login] *)
Definition adminLogin `{Externals} (env : Env) (email password : string)
    (st : Store) : Response * Store :=
  catch500 st (
    let errors := validateLogin email password in
    if negb (isEmpty errors) then Ok (mkResponse 400 (BErrors errors), st)
    else
      match findUserByEmailRole email RAdmin (users st) with
      | None => Ok (jsonError 401 "Invalid credentials", st)
      | Some user =>
          let isMatch := bcrypt_compare password (u_password user) in
          if negb isMatch then Ok (jsonError 401 "Invalid credentials", st)
          else
            let token := jwt_sign (now env) (u_id user) in
            Ok (mkResponse 200 (BAuthAdmin token (u_id user) email), st)
      end).

(** [POST /api/auth/logout] *)
Definition logout (st : Store) : Response * Store :=
  (mkResponse 200
     (BMessage
        "Logout successful. Please remove the token from client storage."),
   st).

(** [["free", "premium"].includes(type)], with the enum value it names. *)
Definition signalTypeOf (type : string) : option SignalType :=
  if decide (type = "free") then Some Free
  else if decide (type = "premium") then Some Premium
  else None.

(** [POST /api/signals], past both middlewares. *)
Definition createSignal (env : Env) (user : User)
    (title description : option string) (type : string) (st : Store)
  : Response * Store :=
  catch500 st (
    match signalTypeOf type with
    | None => Ok (jsonError 400 "Invalid signal type", st)
    | Some t =>
        let signal := mkSignal (fresh_id env) title description t
                               (now env) (u_id user) in
        let* saved := insertSignal signal (signals st) in
        Ok (mkResponse 201 (BSignal signal), set_signals st saved)
    end).

(** [POST /api/feed], past both middlewares. *)
Definition createFeed (env : Env) (user : User)
    (imageUrl caption : option string) (st : Store) : Response * Store :=
  catch500 st (
    if negb (truthy imageUrl) || negb (truthy caption)
    then Ok (jsonError 400 "Image URL and caption are required", st)
    else
      let feedPost := mkFeed (fresh_id env) (str imageUrl) (str caption)
                             [] [] (now env) (u_id user) in
      let* saved := insertFeed feedPost (feeds st) in
      Ok (mkResponse 201 (BFeed feedPost), set_feeds st saved)).

(** [GET /api/signals], past [authMiddleware]. *)
Definition getSignals `{Externals} (user : User) (since : option string)
    (st : Store) : Response * Store :=
  catch500 st (
    let* createdAt := sinceFilter since in
    let query :=
      mkSignalQuery (if u_isPremium user then None else Some Free)
                    createdAt in
    let found := filter (signalMatches query) (signals st) in
    let sorted := merge_sort newerSignal found in
    Ok (mkResponse 200 (BSignals (populateSignal (users st) <$> sorted)),
        st)).

(** [GET /api/feed], past [authMiddleware]. *)
Definition getFeed `{Externals} (user : User) (since : option string)
    (st : Store) : Response * Store :=
  catch500 st (
    let* createdAt := sinceFilter since in
    let found := filter (feedMatches createdAt) (feeds st) in
    let sorted := merge_sort newerFeed found in
    Ok (mkResponse 200 (BFeeds (populateFeed (users st) <$> sorted)), st)).

Definition set_likes (f : Feed) (likes : list ObjectId) : Feed :=
  mkFeed (f_id f) (f_imageUrl f) (f_caption f) likes (f_comments f)
         (f_createdAt f) (f_createdBy f).

Definition set_comments (f : Feed) (comments : list Comment) : Feed :=
  mkFeed (f_id f) (f_imageUrl f) (f_caption f) (f_likes f) comments
         (f_createdAt f) (f_createdBy f).

(** The like toggle on the likes array: [push] when [indexOf] is -1,
    [splice(userIndex, 1)] otherwise. *)
Definition toggle (uid : ObjectId) (likes : list ObjectId) : list ObjectId :=
  match indexOf uid likes with
  | None => likes ++ [uid]
  | Some userIndex => delete userIndex likes
  end.

(** [POST /api/feed/:id/like], past [authMiddleware]. *)
Definition likeFeed `{Externals} (user : User) (id : string) (st : Store)
  : Response * Store :=
  catch500 st (
    let* found := findFeedById id (feeds st) in
    match found with
    | None => Ok (jsonError 404 "Feed post not found", st)
    | Some (i, feedPost) =>
        let feedPost' :=
          set_likes feedPost (toggle (u_id user) (f_likes feedPost)) in
        Ok (mkResponse 200 (BFeed feedPost'),
            set_feeds st (<[i := feedPost']> (feeds st)))
    end).

(** [POST /api/feed/:id/comment], past [authMiddleware]. *)
Definition commentFeed `{Externals} (env : Env) (user : User) (id : string)
    (text : option string) (st : Store) : Response * Store :=
  catch500 st (
    if negb (truthy text)
    then Ok (jsonError 400 "Comment text is required", st)
    else
      let* found := findFeedById id (feeds st) in
      match found with
      | None => Ok (jsonError 404 "Feed post not found", st)
      | Some (i, feedPost) =>
          let comment :=
            mkComment (fresh_id env) (u_id user) (str text) (now env) in
          let feedPost' :=
            set_comments feedPost (f_comments feedPost ++ [comment]) in
          Ok (mkResponse 200 (BFeed feedPost'),
              set_feeds st (<[i := feedPost']> (feeds st)))
      end).

(** ** Routing *)

(** A route behind [authMiddleware]. *)
Definition withAuth `{Externals} (env : Env) (authorization : option string)
    (st : Store) (next : User -> Response * Store) : Response * Store :=
  match authMiddleware (now env) authorization st with
  | inl res => (res, st)
  | inr user => next user
  end.

(** A route behind [authMiddleware, adminMiddleware]. *)
Definition withAdmin `{Externals} (env : Env) (authorization : option string)
    (st : Store) (next : User -> Response * Store) : Response * Store :=
  withAuth env authorization st (fun user =>
    match adminMiddleware user with
    | Some res => (res, st)
    | None => next user
    end).

(** The application: one request against the store. *)
Definition handle `{Externals} (env : Env) (req : Request) (st : Store)
  : Response * Store :=
  match req with
  | PostUserSignup email password isPremium =>
      userSignup env email password isPremium st
  | PostAdminSignup email password => adminSignup env email password st
  | PostUserLogin email password => userLogin env email password st
  | PostAdminLogin email password => adminLogin env email password st
  | PostLogout => logout st
  | PostSignals authorization title description type =>
      withAdmin env authorization st (fun user =>
        createSignal env user title description type st)
  | GetSignals authorization since =>
      withAuth env authorization st (fun user => getSignals user since st)
  | PostFeed authorization imageUrl caption =>
      withAdmin env authorization st (fun user =>
        createFeed env user imageUrl caption st)
  | GetFeed authorization since =>
      withAuth env authorization st (fun user => getFeed user since st)
  | PostFeedLike authorization id =>
      withAuth env authorization st (fun user => likeFeed user id st)
  | PostFeedComment authorization id text =>
      withAuth env authorization st (fun user =>
        commentFeed env user id text st)
  end.

(** The stores the server can be in: the empty database, and whatever a
    request leaves behind. *)
Inductive reachable `{Externals} : Store -> Prop :=
  | reachable_empty : reachable emptyStore
  | reachable_handle env req st :
      reachable st -> reachable (handle env req st).2.

(** The likes invariant of the feed collection. *)
Definition likes_unique (st : Store) : Prop :=
  Forall (fun f => NoDup (f_likes f)) (feeds st).

(** ** A concrete set of collaborators

    Small stand-ins with the same interfaces, on which the handlers can be
    run: an address is anything with an [@]; a hash is the salt, a [$] and
    the password; a token is the secret, a dot and the payload in binary; a
    date is its millisecond count in decimal; an ObjectId is 24 hexadecimal
    digits. *)
Module Sample.

Definition isEmail (s : string) : bool :=
  match String.index 0 "@" s with Some _ => true | None => false end.

Definition bcrypt_hash (salt password : string) : string :=
  salt +:+ "$" +:+ password.

Definition bcrypt_compare (password hash : string) : bool :=
  match String.index 0 "$" hash with
  | Some n =>
      String.eqb
        (String.substring (S n) (String.length hash - S n) hash) password
  | None => false
  end.

Fixpoint bits_of_pos (p : positive) : string :=
  match p with
  | xH => EmptyString
  | xO p' => String "0" (bits_of_pos p')
  | xI p' => String "1" (bits_of_pos p')
  end.

Fixpoint pos_of_bits (s : string) : option positive :=
  match s with
  | EmptyString => Some xH
  | String c s' =>
      if Ascii.eqb c "0" then xO <$> pos_of_bits s'
      else if Ascii.eqb c "1" then xI <$> pos_of_bits s'
      else None
  end.

Definition jws_sign (p : JwtPayload) (secret : string) : string :=
  (secret +:+ ".") +:+ bits_of_pos (encode (userId p, iat p, exp p)).

Definition jws_verify (token secret : string) : option JwtPayload :=
  rest ← strip_prefix (secret +:+ ".") token;
  code ← pos_of_bits rest;
  '(uid, issued, expires) ← decode (A := ObjectId * Z * Z) code;
  Some (mkJwtPayload uid issued expires).

Definition parseDate (s : string) : option Date :=
  match s with
  | EmptyString => None
  | _ => (fun d => Z.of_N (N.of_uint d)) <$>
           DecimalString.NilEmpty.uint_of_string s
  end.

Definition castObjectId (s : string) : option ObjectId :=
  if decide (String.length s = 24%nat)
  then N.of_hex_uint <$> HexadecimalString.NilEmpty.uint_of_string s
  else None.

Definition JWT_SECRET : string := "s3cret".

Definition externals : Externals :=
  Build_Externals isEmail bcrypt_hash bcrypt_compare jws_sign jws_verify
                  parseDate castObjectId JWT_SECRET.

(** Sample data. *)
Definition env0 : Env := mkEnv 1700000000000 1%N "salt".

Definition alice : User :=
  mkUser 1%N "a@x.com" "salt$abcdef" false RUser 1700000000000.

Definition root : User :=
  mkUser 2%N "root@x.com" "salt$hunter22" false RAdmin 1700000000000.

Definition vip : User :=
  mkUser 3%N "vip@x.com" "salt$abcdef" true RUser 1700000000000.

Definition bearer (u : User) : option string :=
  Some ("Bearer " +:+
        jws_sign (mkJwtPayload (u_id u) 1700000000 1700086400) JWT_SECRET).

Definition post1 : Feed :=
  mkFeed 16%N "http://x/i.png" "hello" [] [] 1700000001000 2%N.

Definition post1_id : string := "000000000000000000000010".

Definition freeSignal : Signal :=
  mkSignal 32%N (Some "buy") None Free 1700000002000 2%N.

Definition premiumSignal : Signal :=
  mkSignal 33%N (Some "sell") None Premium 1700000003000 2%N.

Definition store1 : Store :=
  mkStore [alice; root; vip] [freeSignal; premiumSignal] [post1].

(** A store built through the routes alone: an admin signs up and
    publishes one post. *)
Definition booted : Store :=
  (handle (H := externals) (mkEnv 1700000001000 16%N "salt")
     (PostFeed (bearer root) (Some "http://x/i.png") (Some "hello"))
     (handle (H := externals) (mkEnv 1700000000000 2%N "salt")
        (PostAdminSignup "root@x.com" "hunter22") emptyStore).2).2.

End Sample.

(** * Properties *)

(** ** Strings *)

Lemma strip_prefix_app (pat rest : string) :
  strip_prefix pat (pat +:+ rest) = Some rest.
Proof.
  induction pat as [|a pat IH]; simpl; [done|].
  by rewrite Ascii.eqb_refl.
Qed.

Lemma replace_first_unfold (pat rep s : string) :
  replace_first pat rep s =
  match strip_prefix pat s with
  | Some rest => rep +:+ rest
  | None =>
      match s with
      | EmptyString => EmptyString
      | String c s' => String c (replace_first pat rep s')
      end
  end.
Proof. by destruct s. Qed.

(** Stripping the scheme from a well-formed header gives the token back. *)
Lemma replace_first_bearer (token : string) :
  replace_first "Bearer " "" ("Bearer " +:+ token) = token.
Proof. by rewrite replace_first_unfold, strip_prefix_app. Qed.

(** ** The users collection *)

Lemma findUserByEmail_None email us :
  findUserByEmail email us = None <-> forall u, u ∈ us -> u_email u <> email.
Proof.
  unfold findUserByEmail. rewrite fmap_None, list_find_None, Forall_forall.
  done.
Qed.

Lemma findUserByEmail_elem_of email us u :
  u ∈ us -> u_email u = email -> is_Some (findUserByEmail email us).
Proof.
  intros Hin Hem. unfold findUserByEmail. apply fmap_is_Some.
  by apply (list_find_elem_of _ _ u).
Qed.

Lemma findUserById_app_new us u :
  (forall v, v ∈ us -> u_id v <> u_id u) ->
  findUserById (u_id u) (us ++ [u]) = Some u.
Proof.
  intros Hfresh. unfold findUserById.
  rewrite list_find_app_r.
  - simpl. by rewrite decide_True.
  - by apply list_find_None, Forall_forall.
Qed.

Lemma insertUser_Ok u us saved :
  insertUser u us = Ok saved ->
  saved = us ++ [u] /\
  forall v, v ∈ us -> u_id v <> u_id u /\ u_email v <> u_email u.
Proof.
  unfold insertUser. case_decide as Hdup; [done|].
  intros [= <-]. split; [done|]. intros v Hv.
  rewrite Exists_exists in Hdup.
  split; intros Heq; apply Hdup; exists v; auto.
Qed.

Lemma insertUser_fresh u us :
  (forall v, v ∈ us -> u_id v <> u_id u) ->
  (forall v, v ∈ us -> u_email v <> u_email u) ->
  insertUser u us = Ok (us ++ [u]).
Proof.
  intros Hid Hem. unfold insertUser. rewrite decide_False; [done|].
  rewrite Exists_exists. intros (v & Hv & [Heq|Heq]).
  - by apply (Hid v).
  - by apply (Hem v).
Qed.

Lemma validateSignup_nil `{Externals} email password :
  validateSignup email password = [] <->
  isEmail email = true /\ (6 <= String.length password)%nat.
Proof.
  unfold validateSignup, isLength_min.
  destruct (isEmail email);
    destruct (Nat.leb_spec 6 (String.length password)) as [Hle|Hlt]; simpl.
  - done.
  - split; [done|]. intros [_ Hle]. lia.
  - split; [done|]. by intros [Hem _].
  - split; [done|]. by intros [Hem _].
Qed.

Lemma validateLogin_nil `{Externals} email password :
  validateLogin email password = [] <->
  isEmail email = true /\ password <> EmptyString.
Proof.
  unfold validateLogin.
  destruct (isEmail email); destruct password as [|c password]; simpl.
  - split; [done|]. by intros [_ Hne].
  - done.
  - split; [done|]. by intros [Hem _].
  - split; [done|]. by intros [Hem _].
Qed.

(** The record a successful user signup stores. *)
Definition signedUp `{Externals} (env : Env) (email password : string)
    (isPremium : option bool) : User :=
  mkUser (fresh_id env) email (bcrypt_hash (salt env) password)
         (default false isPremium) RUser (now env).

(** The success path of the user signup, from its status alone. *)
Lemma userSignup_201 `{Externals} env email password isPremium st :
  status (userSignup env email password isPremium st).1 = 201 ->
  let created := signedUp env email password isPremium in
  userSignup env email password isPremium st =
    (mkResponse 201
       (BAuthUser (jwt_sign (now env) (fresh_id env)) (fresh_id env) email
                  isPremium),
     set_users st (users st ++ [created])) /\
  (forall v, v ∈ users st -> u_id v <> fresh_id env /\ u_email v <> email).
Proof.
  unfold userSignup.
  destruct (validateSignup email password); simpl; [|done].
  destruct (findUserByEmail email (users st)); simpl; [done|].
  destruct (insertUser _ (users st)) as [saved|e] eqn:Hins; simpl; [|done].
  intros _. apply insertUser_Ok in Hins as [-> Hfresh]. done.
Qed.

(** A valid payload with an unused address gets its 201 as soon as the
    generated ObjectId is unused too. *)
Lemma userSignup_valid `{Externals} env email password isPremium st :
  isEmail email = true -> (6 <= String.length password)%nat ->
  (forall v, v ∈ users st -> u_email v <> email) ->
  (forall v, v ∈ users st -> u_id v <> fresh_id env) ->
  status (userSignup env email password isPremium st).1 = 201.
Proof.
  intros Hem Hpw Hnew Hid. unfold userSignup.
  rewrite (proj2 (validateSignup_nil email password)) by done. simpl.
  rewrite (proj2 (findUserByEmail_None email (users st))) by done. simpl.
  by rewrite insertUser_fresh.
Qed.

(** ** Tokens *)

Section tokens.
Context `{Externals}.

(** What jsonwebtoken guarantees: a token verifies under the secret that
    signed it and decodes to the payload signed, and the compact
    serialisation is never the empty string. *)
Hypothesis jws_verify_sign :
  forall p secret, jws_verify (jws_sign p secret) secret = Some p.
Hypothesis jws_sign_nonempty :
  forall p secret, jws_sign p secret <> EmptyString.

Lemma jwt_verify_sign issued uid presented :
  presented / 1000 < issued / 1000 + 86400 ->
  jwt_verify presented (jwt_sign issued uid) =
    Ok (mkJwtPayload uid (issued / 1000) (issued / 1000 + 86400)).
Proof.
  intros Hfresh. unfold jwt_verify, jwt_sign.
  rewrite jws_verify_sign. simpl.
  destruct (Z.leb_spec (issued / 1000 + 86400) (presented / 1000)); [lia|done].
Qed.

Lemma jwt_verify_expired issued uid presented :
  issued / 1000 + 86400 <= presented / 1000 ->
  jwt_verify presented (jwt_sign issued uid) = Throw TokenExpiredError.
Proof.
  intros Hlate. unfold jwt_verify, jwt_sign.
  rewrite jws_verify_sign. simpl.
  destruct (Z.leb_spec (issued / 1000 + 86400) (presented / 1000)); [done|lia].
Qed.

Lemma authMiddleware_bearer presented token st :
  token <> EmptyString ->
  authMiddleware presented (Some ("Bearer " +:+ token)) st =
  match jwt_verify presented token with
  | Throw _ => inl (jsonError 401 "Invalid token")
  | Ok decoded =>
      match findUserById (userId decoded) (users st) with
      | None => inl (jsonError 401 "User not found")
      | Some user => inr user
      end
  end.
Proof.
  intros Hne. unfold authMiddleware.
  change (replace_first "Bearer " "" <$> Some ("Bearer " +:+ token))
    with (Some (replace_first "Bearer " "" ("Bearer " +:+ token))).
  rewrite replace_first_bearer. by destruct token.
Qed.

(** C1 (amended): for every valid user-signup payload whose address is
    not in the store, the signup answers 201 with a token that, presented
    to [authMiddleware] as a bearer token before its 24 hours are over,
    verifies and resolves to exactly the user record the signup stored.
    (The ObjectId generated for the new document is an unused one.) *)
Theorem C1_signup_token_authenticates env email password isPremium st :
  isEmail email = true ->
  (6 <= String.length password)%nat ->
  (forall v, v ∈ users st -> u_email v <> email) ->
  (forall v, v ∈ users st -> u_id v <> fresh_id env) ->
  exists token,
    let created := signedUp env email password isPremium in
    let st' := set_users st (users st ++ [created]) in
    userSignup env email password isPremium st =
      (mkResponse 201 (BAuthUser token (u_id created) email isPremium),
       st') /\
    forall presented,
      presented / 1000 < now env / 1000 + 86400 ->
      authMiddleware presented (Some ("Bearer " +:+ token)) st'
        = inr created.
Proof.
  intros Hem Hpw Hnew Hid.
  pose proof (userSignup_valid env email password isPremium st
                Hem Hpw Hnew Hid) as H201.
  apply userSignup_201 in H201 as [Heq _].
  eexists. simpl. split; [exact Heq|].
  intros presented Hwin.
  rewrite authMiddleware_bearer by apply jws_sign_nonempty.
  rewrite jwt_verify_sign by done. simpl.
  by rewrite (findUserById_app_new (users st)
                (signedUp env email password isPremium)).
Qed.

(** Past its expiry the same token is refused, whatever the store. *)
Lemma authMiddleware_expired issued uid presented st :
  issued / 1000 + 86400 <= presented / 1000 ->
  authMiddleware presented
      (Some ("Bearer " +:+ jwt_sign issued uid)) st
    = inl (jsonError 401 "Invalid token").
Proof.
  intros Hlate.
  rewrite authMiddleware_bearer by apply jws_sign_nonempty.
  by rewrite jwt_verify_expired.
Qed.

End tokens.

(** The sample collaborators meet the two token laws. *)
Lemma Sample_pos_of_bits (p : positive) :
  Sample.pos_of_bits (Sample.bits_of_pos p) = Some p.
Proof. induction p as [p IH|p IH|]; simpl; [by rewrite IH..|done]. Qed.

Lemma Sample_jws_verify_sign (p : JwtPayload) (secret : string) :
  Sample.jws_verify (Sample.jws_sign p secret) secret = Some p.
Proof.
  unfold Sample.jws_verify, Sample.jws_sign.
  rewrite strip_prefix_app. simpl.
  rewrite Sample_pos_of_bits. simpl.
  rewrite decode_encode. by destruct p.
Qed.

Lemma Sample_jws_sign_nonempty (p : JwtPayload) (secret : string) :
  Sample.jws_sign p secret <> EmptyString.
Proof.
  unfold Sample.jws_sign. induction secret as [|c secret IH]; simpl; done.
Qed.

Lemma C1_signup_token_authenticates_witness :
  exists token,
    userSignup (H := Sample.externals) Sample.env0 "a@x.com" "abcdef" None
               emptyStore
      = (mkResponse 201 (BAuthUser token 1%N "a@x.com" None),
         mkStore [Sample.alice] [] []) /\
    authMiddleware (H := Sample.externals) 1700086399999
                   (Some ("Bearer " +:+ token))
                   (mkStore [Sample.alice] [] [])
      = inr Sample.alice.
Proof.
  destruct (C1_signup_token_authenticates (H := Sample.externals)
              Sample_jws_verify_sign Sample_jws_sign_nonempty
              Sample.env0 "a@x.com" "abcdef" None emptyStore)
    as [token [Hrun Hauth]].
  - reflexivity.
  - simpl. lia.
  - intros v Hv. inversion Hv.
  - intros v Hv. inversion Hv.
  - exists token. split; [exact Hrun|].
    apply (Hauth 1700086399999). vm_compute. reflexivity.
Defined.

(** C1, as stated, fails once the token has expired: the token from a 201
    signup, presented 24 hours later against the store the signup left,
    is answered 401 and resolves to no user. *)
Lemma C1_expired_token_rejected :
  exists token,
    userSignup (H := Sample.externals) Sample.env0 "a@x.com" "abcdef" None
               emptyStore
      = (mkResponse 201 (BAuthUser token 1%N "a@x.com" None),
         mkStore [Sample.alice] [] []) /\
    authMiddleware (H := Sample.externals) (1700000000000 + 86400000)
                   (Some ("Bearer " +:+ token))
                   (mkStore [Sample.alice] [] [])
      = inl (jsonError 401 "Invalid token").
Proof.
  exists (jwt_sign (H := Sample.externals) 1700000000000 1%N).
  split; vm_compute; reflexivity.
Qed.

(** ** Signup *)

(** What the user signup stores and what it reports: the stored tier flag
    is the request's, [false] when omitted, while the response repeats the
    request's own field, so the two agree exactly when the flag was sent. *)
Lemma userSignup_echoes_tier `{Externals} env email password isPremium st :
  isEmail email = true ->
  (6 <= String.length password)%nat ->
  (forall v, v ∈ users st -> u_email v <> email) ->
  (forall v, v ∈ users st -> u_id v <> fresh_id env) ->
  exists token created reported,
    userSignup env email password isPremium st =
      (mkResponse 201 (BAuthUser token (u_id created) email reported),
       set_users st (users st ++ [created])) /\
    u_email created = email /\
    u_role created = RUser /\
    u_isPremium created = default false isPremium /\
    reported = isPremium /\
    (reported = Some (u_isPremium created) <-> isPremium <> None).
Proof.
  intros Hem Hpw Hnew Hid.
  pose proof (userSignup_valid env email password isPremium st
                Hem Hpw Hnew Hid) as H201.
  apply userSignup_201 in H201 as [Heq _].
  exists (jwt_sign (now env) (fresh_id env)),
         (signedUp env email password isPremium), isPremium.
  split; [exact Heq|].
  simpl. split_and!; try done.
  destruct isPremium as [b|]; simpl; split; done.
Qed.

(** C2: a valid signup that leaves the tier flag out stores a user with
    role [user] and tier flag [false], and answers 201 with the id and the
    address, yet the [user] object of that response has no tier flag: what
    it reports is not the stored [false]. *)
Theorem C2_signup_omitted_tier_not_reported `{Externals}
    env email password st :
  isEmail email = true ->
  (6 <= String.length password)%nat ->
  (forall v, v ∈ users st -> u_email v <> email) ->
  (forall v, v ∈ users st -> u_id v <> fresh_id env) ->
  exists token created reported,
    userSignup env email password None st =
      (mkResponse 201 (BAuthUser token (u_id created) email reported),
       set_users st (users st ++ [created])) /\
    u_role created = RUser /\
    u_isPremium created = false /\
    reported = None /\
    reported <> Some (u_isPremium created).
Proof.
  intros Hem Hpw Hnew Hid.
  destruct (userSignup_echoes_tier env email password None st
              Hem Hpw Hnew Hid)
    as (token & created & reported & Hrun & _ & Hrole & Htier & Hrep & _).
  exists token, created, reported.
  split_and!; [exact Hrun|exact Hrole|exact Htier|exact Hrep|].
  by rewrite Hrep.
Qed.

Lemma C2_signup_omitted_tier_not_reported_witness :
  exists token created reported,
    userSignup (H := Sample.externals) Sample.env0 "a@x.com" "abcdef" None
               emptyStore
      = (mkResponse 201 (BAuthUser token (u_id created) "a@x.com" reported),
         set_users emptyStore (users emptyStore ++ [created])) /\
    u_isPremium created = false /\
    reported = None.
Proof.
  destruct (C2_signup_omitted_tier_not_reported (H := Sample.externals)
              Sample.env0 "a@x.com" "abcdef" emptyStore)
    as (token & created & reported & Hrun & _ & Htier & Hrep & _).
  - reflexivity.
  - simpl. lia.
  - intros v Hv. inversion Hv.
  - intros v Hv. inversion Hv.
  - exists token, created, reported. split_and!; assumption.
Defined.

(** C3: a signup, on the user or on the admin route, whose address is the
    address of a stored user of whatever role is answered 400 and leaves
    the store as it was; when the payload is otherwise valid the answer is
    the duplicate-address error. *)
Theorem C3_duplicate_email_rejected `{Externals}
    env email password isPremium st u :
  u ∈ users st ->
  u_email u = email ->
  (status (userSignup env email password isPremium st).1 = 400 /\
   (userSignup env email password isPremium st).2 = st /\
   (isEmail email = true -> (6 <= String.length password)%nat ->
    (userSignup env email password isPremium st).1
      = jsonError 400 "Email already exists")) /\
  (status (adminSignup env email password st).1 = 400 /\
   (adminSignup env email password st).2 = st /\
   (isEmail email = true -> (6 <= String.length password)%nat ->
    (adminSignup env email password st).1
      = jsonError 400 "Email already exists")).
Proof.
  intros Hin Hem.
  destruct (findUserByEmail_elem_of email (users st) u Hin Hem) as [w Hw].
  unfold userSignup, adminSignup.
  destruct (validateSignup email password) as [|e errors] eqn:Hval; simpl.
  - rewrite Hw. simpl. done.
  - split; (split_and!; [done..|]); intros Hvalid Hlen;
      by rewrite (proj2 (validateSignup_nil email password)) in Hval.
Qed.

Lemma C3_duplicate_email_rejected_witness :
  Sample.root ∈ users Sample.store1 /\
  u_role Sample.root = RAdmin /\
  userSignup (H := Sample.externals) Sample.env0 "root@x.com" "abcdef" None
             Sample.store1
    = (jsonError 400 "Email already exists", Sample.store1).
Proof.
  split; [|split; [reflexivity|]].
  - apply list_elem_of_In. right. left. reflexivity.
  - pose proof (C3_duplicate_email_rejected (H := Sample.externals)
                  Sample.env0 "root@x.com" "abcdef" None
                  Sample.store1 Sample.root) as Hdup.
    destruct Hdup as [[_ [Hst Hbody]] _].
    + apply list_elem_of_In. right. left. reflexivity.
    + reflexivity.
    + rewrite (surjective_pairing (userSignup _ _ _ _ _)).
      rewrite Hst, Hbody; [reflexivity|reflexivity|simpl; lia].
Defined.

(** ** Login *)

Lemma findUserByEmailRole_other_role email role us :
  (forall u, u ∈ us -> u_email u = email -> u_role u <> role) ->
  findUserByEmailRole email role us = None.
Proof.
  intros Hother. unfold findUserByEmailRole.
  apply fmap_None, list_find_None, Forall_forall.
  intros u Hu [Hem Hrole]. by apply (Hother u).
Qed.

(** C4 (amended): the user login looks the store up by (email, role =
    user); for every request that passes validation (valid address,
    non-empty password), if there is no such user -- in particular if the
    address only belongs to an admin -- or if the password does not match
    the hash of the user found, the answer is 401 with one and the same
    body, and the store is untouched. *)
Theorem C4_login_failure_opaque `{Externals} env email password st :
  isEmail email = true ->
  password <> EmptyString ->
  findUserByEmailRole email RUser (users st) = None \/
  (forall u, u ∈ users st -> u_email u = email -> u_role u = RAdmin) \/
  (exists user,
      findUserByEmailRole email RUser (users st) = Some user /\
      bcrypt_compare password (u_password user) = false) ->
  userLogin env email password st
    = (jsonError 401 "Invalid credentials", st).
Proof.
  intros Hem Hpw Hfail. unfold userLogin.
  rewrite (proj2 (validateLogin_nil email password)) by done. simpl.
  destruct Hfail as [Hnone|[Hadmin|(user & Hsome & Hbad)]].
  - by rewrite Hnone.
  - rewrite findUserByEmailRole_other_role; [done|].
    intros u Hu Hue. by rewrite (Hadmin u Hu Hue).
  - rewrite Hsome, Hbad. done.
Qed.

Lemma C4_login_failure_opaque_witness :
  userLogin (H := Sample.externals) Sample.env0 "root@x.com" "hunter22"
            Sample.store1
    = (jsonError 401 "Invalid credentials", Sample.store1) /\
  userLogin (H := Sample.externals) Sample.env0 "a@x.com" "wrong-password"
            Sample.store1
    = (jsonError 401 "Invalid credentials", Sample.store1).
Proof.
  split.
  - apply (C4_login_failure_opaque (H := Sample.externals)).
    + reflexivity.
    + discriminate.
    + left. vm_compute. reflexivity.
  - apply (C4_login_failure_opaque (H := Sample.externals)).
    + reflexivity.
    + discriminate.
    + right. right. exists Sample.alice. split; vm_compute; reflexivity.
Defined.

(** C4, as stated, fails for a request that does not pass validation: with
    no user of that address in the store, a login with an empty password
    is answered 400 with the list of field errors, not 401. *)
Lemma C4_login_invalid_payload_400 :
  findUserByEmailRole "nobody@x.com" RUser (users Sample.store1) = None /\
  userLogin (H := Sample.externals) Sample.env0 "nobody@x.com" ""
            Sample.store1
    = (mkResponse 400
         (BErrors [mkFieldError "password" "Password is required"]),
       Sample.store1).
Proof. split; vm_compute; reflexivity. Qed.

(** ** Signals *)

(** The visibility rule in the specification's words: a signal is shown to
    a caller when the caller is premium or the signal is free, and, if a
    cursor is given, when it was created strictly after the cursor. *)
Definition createdAfter (gt : option Date) (s : Signal) : Prop :=
  match gt with
  | Some d => d < s_createdAt s
  | None => True
  end.

Definition visibleTo (user : User) (gt : option Date) (s : Signal) : Prop :=
  (u_isPremium user = true \/ s_type s = Free) /\ createdAfter gt s.

Global Instance createdAfter_dec gt s : Decision (createdAfter gt s).
Proof. destruct gt; simpl; apply _. Defined.

Global Instance visibleTo_dec user gt s : Decision (visibleTo user gt s).
Proof. unfold visibleTo. apply _. Defined.

Global Instance newerSignal_total : Total newerSignal.
Proof. intros a b. unfold newerSignal. lia. Qed.

Global Instance newerSignal_trans : Transitive newerSignal.
Proof. intros a b c. unfold newerSignal. lia. Qed.

Lemma signalMatches_visibleTo user gt s :
  signalMatches
    (mkSignalQuery (if u_isPremium user then None else Some Free) gt) s
  <-> visibleTo user gt s.
Proof.
  unfold signalMatches, visibleTo, createdAfter.
  destruct (u_isPremium user), gt; simpl; intuition congruence.
Qed.

Lemma sinceFilter_cases `{Externals} since gt :
  (truthy since = false /\ gt = None) \/
  (truthy since = true /\ parseDate (str since) = gt /\ is_Some gt) ->
  sinceFilter since = Ok gt.
Proof.
  unfold sinceFilter.
  intros [[-> ->]|(-> & <- & [d ->])]; done.
Qed.

(** C5: for every authenticated caller (the user [authMiddleware] resolves
    the request to) and every [since] that is absent, empty or parsable,
    GET /api/signals is answered 200 with a list whose entries are exactly
    the stored signals visible to the caller, each once and each with its
    own id, title, description, type, creation time and resolved creator:
    when the caller's tier flag is false every entry has type [free] and
    every stored free signal is listed; when it is true every stored
    signal, of either type, is listed with its type; in both cases only
    signals created strictly after a supplied [since] are listed; and the
    list is sorted by creation time, newest first. *)
Theorem C5_signal_list_by_tier `{Externals}
    env authorization user since gt st :
  authMiddleware (now env) authorization st = inr user ->
  (truthy since = false /\ gt = None) \/
  (truthy since = true /\ parseDate (str since) = gt /\ is_Some gt) ->
  exists l,
    let listed := populateSignal (users st) <$> l in
    handle env (GetSignals authorization since) st
      = (mkResponse 200 (BSignals listed), st) /\
    l ≡ₚ filter (visibleTo user gt) (signals st) /\
    Forall2 (fun v s =>
               sv_id v = s_id s /\ sv_title v = s_title s /\
               sv_description v = s_description s /\
               sv_type v = s_type s /\ sv_createdAt v = s_createdAt s /\
               sv_createdBy v =
                 (fun u => (u_id u, u_email u)) <$>
                   findUserById (s_createdBy s) (users st))
            listed l /\
    (u_isPremium user = false -> Forall (fun v => sv_type v = Free) listed) /\
    (u_isPremium user = true -> l ≡ₚ filter (createdAfter gt) (signals st)) /\
    (forall s,
        s ∈ signals st ->
        u_isPremium user = true \/ s_type s = Free ->
        (forall d, gt = Some d -> d < s_createdAt s) ->
        exists v, v ∈ listed /\ sv_id v = s_id s /\ sv_type v = s_type s /\
                  sv_title v = s_title s /\
                  sv_description v = s_description s /\
                  sv_createdAt v = s_createdAt s) /\
    (forall v,
        v ∈ listed ->
        exists s, s ∈ signals st /\ sv_id v = s_id s /\
                  sv_type v = s_type s /\ sv_createdAt v = s_createdAt s /\
                  (u_isPremium user = true \/ sv_type v = Free)) /\
    Forall (fun v => forall d, gt = Some d -> d < sv_createdAt v) listed /\
    StronglySorted (fun a b => sv_createdAt b <= sv_createdAt a) listed.
Proof.
  intros Hauth Hsince. apply sinceFilter_cases in Hsince.
  set (q := mkSignalQuery (if u_isPremium user then None else Some Free) gt).
  exists (merge_sort newerSignal (filter (signalMatches q) (signals st))).
  assert (merge_sort newerSignal (filter (signalMatches q) (signals st))
            ≡ₚ filter (visibleTo user gt) (signals st)) as Hperm.
  { rewrite merge_sort_Permutation.
    erewrite list_filter_iff; [done|].
    intros s. apply signalMatches_visibleTo. }
  simpl. split_and!.
  - unfold withAuth. rewrite Hauth. unfold getSignals. by rewrite Hsince.
  - done.
  - apply Forall2_fmap_l, Forall_Forall2_diag, Forall_forall.
    intros s Hs. simpl. done.
  - intros Hfree. rewrite Forall_fmap, Hperm, Forall_forall.
    intros s [[[Hp|Hs] _] _]%list_elem_of_filter; simpl; congruence.
  - intros Hprem. rewrite Hperm. erewrite list_filter_iff; [done|].
    intros s. unfold visibleTo. tauto.
  - intros s Hs Htier Hafter.
    exists (populateSignal (users st) s). split; [|done].
    apply list_elem_of_fmap_2. rewrite Hperm.
    apply list_elem_of_filter. split; [|done]. split; [done|].
    unfold createdAfter. destruct gt as [d|]; [by apply Hafter|done].
  - intros v (s & -> & Hs)%list_elem_of_fmap.
    rewrite Hperm in Hs.
    apply list_elem_of_filter in Hs as [[Htier _] Hs].
    exists s. simpl. done.
  - rewrite Forall_fmap, Hperm, Forall_forall.
    intros s [[_ Hgt] _]%list_elem_of_filter d ->. exact Hgt.
  - apply (StronglySorted_fmap _ newerSignal); [done|].
    apply StronglySorted_merge_sort; apply _.
Qed.

Lemma C5_signal_list_by_tier_witness :
  (exists listed,
     handle (H := Sample.externals) Sample.env0
            (GetSignals (Sample.bearer Sample.vip) None) Sample.store1
       = (mkResponse 200 (BSignals listed), Sample.store1) /\
     (exists v, v ∈ listed /\ sv_id v = 33%N /\ sv_type v = Premium) /\
     (exists v, v ∈ listed /\ sv_id v = 32%N /\ sv_type v = Free)) /\
  (exists listed,
     handle (H := Sample.externals) Sample.env0
            (GetSignals (Sample.bearer Sample.alice) None) Sample.store1
       = (mkResponse 200 (BSignals listed), Sample.store1) /\
     Forall (fun v => sv_type v = Free) listed /\
     (exists v, v ∈ listed /\ sv_id v = 32%N /\ sv_type v = Free)).
Proof.
  assert (Sample.freeSignal ∈ signals Sample.store1) as Hfree
    by (apply list_elem_of_In; left; reflexivity).
  assert (Sample.premiumSignal ∈ signals Sample.store1) as Hpremium
    by (apply list_elem_of_In; right; left; reflexivity).
  split.
  - destruct (C5_signal_list_by_tier (H := Sample.externals) Sample.env0
                (Sample.bearer Sample.vip) Sample.vip None None
                Sample.store1)
      as (l & Hrun & _ & _ & _ & _ & Hshown & _).
    + vm_compute. reflexivity.
    + left. split; reflexivity.
    + eexists. split; [exact Hrun|]. split.
      * destruct (Hshown Sample.premiumSignal Hpremium)
          as (v & Hv & Hid & Hty & _); [by left|discriminate|].
        exists v. split_and!; [exact Hv|exact Hid|exact Hty].
      * destruct (Hshown Sample.freeSignal Hfree)
          as (v & Hv & Hid & Hty & _); [by left|discriminate|].
        exists v. split_and!; [exact Hv|exact Hid|exact Hty].
  - destruct (C5_signal_list_by_tier (H := Sample.externals) Sample.env0
                (Sample.bearer Sample.alice) Sample.alice None None
                Sample.store1)
      as (l & Hrun & _ & _ & Honly & _ & Hshown & _).
    + vm_compute. reflexivity.
    + left. split; reflexivity.
    + eexists. split; [exact Hrun|]. split.
      * apply Honly. reflexivity.
      * destruct (Hshown Sample.freeSignal Hfree)
          as (v & Hv & Hid & Hty & _); [by right|discriminate|].
        exists v. split_and!; [exact Hv|exact Hid|exact Hty].
Defined.

(** ** The like toggle *)

Lemma indexOf_None (x : ObjectId) (likes : list ObjectId) :
  indexOf x likes = None <-> x ∉ likes.
Proof.
  unfold indexOf. rewrite fmap_None. split.
  - intros Hall%list_find_None Hin.
    rewrite Forall_forall in Hall. by apply (Hall x).
  - intros Hnot. apply list_find_None, Forall_forall.
    by intros y Hy ->.
Qed.

Lemma indexOf_Some (x : ObjectId) (likes : list ObjectId) (i : nat) :
  indexOf x likes = Some i -> likes !! i = Some x.
Proof.
  unfold indexOf. intros [[j y] [Hfind ->]]%fmap_Some.
  apply list_find_Some in Hfind as (Hlook & -> & _). done.
Qed.

Lemma filter_all {A} (P : A -> Prop) `{forall x, Decision (P x)}
    (l : list A) :
  Forall P l -> filter P l = l.
Proof.
  induction 1 as [|x l Hx Hl IH]; [done|].
  by rewrite filter_cons_True, IH.
Qed.

(** In a list without repetitions, dropping the entry at the position of
    [x] is dropping [x]. *)
Lemma delete_NoDup_filter (x : ObjectId) (l : list ObjectId) (i : nat) :
  NoDup l -> l !! i = Some x -> delete i l = filter (fun y => y <> x) l.
Proof.
  intros Hnd. revert i.
  induction Hnd as [|y l Hy Hnd IH]; intros i Hi; [done|].
  destruct i as [|i]; simpl in *.
  - injection Hi as ->.
    rewrite filter_cons_False by (intros Hne; by apply Hne).
    symmetry. apply filter_all, Forall_forall. intros z Hz ->. done.
  - assert (y <> x) as Hne.
    { intros ->. apply Hy. by apply list_elem_of_lookup_2 in Hi. }
    rewrite filter_cons_True by done. f_equal. by apply IH.
Qed.

Lemma toggle_absent (x : ObjectId) (likes : list ObjectId) :
  x ∉ likes -> toggle x likes = likes ++ [x].
Proof.
  intros Hnot. unfold toggle.
  by rewrite (proj2 (indexOf_None x likes)).
Qed.

Lemma toggle_present (x : ObjectId) (likes : list ObjectId) :
  NoDup likes -> x ∈ likes ->
  toggle x likes = filter (fun y => y <> x) likes /\ x ∉ toggle x likes.
Proof.
  intros Hnd Hin. unfold toggle.
  destruct (indexOf x likes) as [i|] eqn:Hidx.
  - apply indexOf_Some in Hidx.
    rewrite (delete_NoDup_filter x likes i) by done.
    split; [done|]. rewrite list_elem_of_filter. by intros [Hne _].
  - by apply indexOf_None in Hidx.
Qed.

(** The toggle keeps the likes free of repetitions. *)
Lemma toggle_NoDup (x : ObjectId) (likes : list ObjectId) :
  NoDup likes -> NoDup (toggle x likes).
Proof.
  intros Hnd. destruct (decide (x ∈ likes)) as [Hin|Hnot].
  - destruct (toggle_present x likes Hnd Hin) as [-> _].
    by apply NoDup_filter.
  - rewrite toggle_absent by done.
    apply NoDup_app. split_and!; [done| |apply NoDup_singleton].
    intros y Hy ->%list_elem_of_singleton. done.
Qed.

Lemma toggle_toggle (x : ObjectId) (likes : list ObjectId) :
  NoDup likes -> toggle x (toggle x likes) ≡ₚ likes.
Proof.
  intros Hnd. destruct (decide (x ∈ likes)) as [Hin|Hnot].
  - destruct (toggle_present x likes Hnd Hin) as [Heq Hgone].
    rewrite (toggle_absent x (toggle x likes)) by done.
    apply NoDup_Permutation; [|done|].
    + apply NoDup_app. split_and!; [by apply toggle_NoDup| |apply NoDup_singleton].
      intros y Hy ->%list_elem_of_singleton. done.
    + intros y. rewrite elem_of_app, list_elem_of_singleton, Heq.
      rewrite list_elem_of_filter. split.
      * intros [[Hne Hy]| ->]; done.
      * intros Hy. destruct (decide (y = x)) as [->|Hne]; [by right|by left].
  - rewrite (toggle_absent x likes) by done.
    unfold toggle.
    assert (indexOf x (likes ++ [x]) = Some (length likes)) as ->.
    { unfold indexOf. rewrite list_find_app_r.
      - simpl. by rewrite decide_True.
      - apply list_find_None, Forall_forall. by intros y Hy ->. }
    assert (delete (length likes) (likes ++ [x]) = likes) as ->; [|done].
    rewrite (delete_middle likes [] x). by rewrite app_nil_r.
Qed.

(** ** The feed collection *)

Lemma findFeedById_Some `{Externals} id fs i f :
  findFeedById id fs = Ok (Some (i, f)) ->
  castObjectId id = Some (f_id f) /\ fs !! i = Some f /\
  list_find (fun g => f_id g = f_id f) fs = Some (i, f).
Proof.
  unfold findFeedById. destruct (castObjectId id) as [oid|]; [|done].
  intros [= Hfind]. pose proof Hfind as (Hlook & <- & _)%list_find_Some.
  done.
Qed.

(** Saving a changed post over the one that was found keeps it the one
    that its id finds. *)
Lemma findFeedById_insert `{Externals} id fs i f f' :
  findFeedById id fs = Ok (Some (i, f)) ->
  f_id f' = f_id f ->
  findFeedById id (<[i := f']> fs) = Ok (Some (i, f')).
Proof.
  intros (Hcast & Hlook & Hfind)%findFeedById_Some Hid.
  unfold findFeedById. rewrite Hcast. f_equal.
  apply list_find_Some in Hfind as (_ & _ & Hleast).
  apply list_find_Some. split_and!.
  - apply list_lookup_insert_eq. by eapply lookup_lt_Some.
  - done.
  - intros j g Hj Hlt. rewrite list_lookup_insert_ne in Hj by lia.
    by apply (Hleast j).
Qed.

Lemma likeFeed_found `{Externals} user id st i feedPost :
  findFeedById id (feeds st) = Ok (Some (i, feedPost)) ->
  likeFeed user id st =
    (mkResponse 200
       (BFeed (set_likes feedPost (toggle (u_id user) (f_likes feedPost)))),
     set_feeds st
       (<[i := set_likes feedPost (toggle (u_id user) (f_likes feedPost))]>
          (feeds st))).
Proof. intros Hfound. unfold likeFeed. by rewrite Hfound. Qed.

(** ** The likes invariant *)

Lemma likes_unique_insert st i f :
  likes_unique st -> NoDup (f_likes f) ->
  likes_unique (set_feeds st (<[i := f]> (feeds st))).
Proof. intros Hinv Hf. by apply Forall_insert. Qed.

Lemma likes_unique_snoc st f :
  likes_unique st -> NoDup (f_likes f) ->
  likes_unique (set_feeds st (feeds st ++ [f])).
Proof.
  intros Hinv Hf. apply Forall_app. split; [done|].
  by apply Forall_singleton.
Qed.

Lemma likes_unique_lookup st i f :
  likes_unique st -> feeds st !! i = Some f -> NoDup (f_likes f).
Proof. intros Hinv Hi. by apply (Forall_lookup_1 _ _ _ _ Hinv Hi). Qed.

(** Each handler keeps the invariant. *)
Lemma userSignup_likes_unique `{Externals} env email password isPremium st :
  likes_unique st ->
  likes_unique (userSignup env email password isPremium st).2.
Proof.
  intros Hinv. unfold userSignup.
  destruct (validateSignup email password); simpl; [|done].
  destruct (findUserByEmail email (users st)); simpl; [done|].
  destruct (insertUser _ (users st)); simpl; done.
Qed.

Lemma adminSignup_likes_unique `{Externals} env email password st :
  likes_unique st -> likes_unique (adminSignup env email password st).2.
Proof.
  intros Hinv. unfold adminSignup.
  destruct (validateSignup email password); simpl; [|done].
  destruct (findUserByEmail email (users st)); simpl; [done|].
  destruct (insertUser _ (users st)); simpl; done.
Qed.

Lemma userLogin_store `{Externals} env email password st :
  (userLogin env email password st).2 = st.
Proof.
  unfold userLogin.
  destruct (validateLogin email password); simpl; [|done].
  destruct (findUserByEmailRole email RUser (users st)); simpl; [|done].
  destruct (bcrypt_compare _ _); done.
Qed.

Lemma adminLogin_store `{Externals} env email password st :
  (adminLogin env email password st).2 = st.
Proof.
  unfold adminLogin.
  destruct (validateLogin email password); simpl; [|done].
  destruct (findUserByEmailRole email RAdmin (users st)); simpl; [|done].
  destruct (bcrypt_compare _ _); done.
Qed.

Lemma createSignal_likes_unique env user title description type st :
  likes_unique st ->
  likes_unique (createSignal env user title description type st).2.
Proof.
  intros Hinv. unfold createSignal.
  destruct (signalTypeOf type); simpl; [|done].
  destruct (insertSignal _ (signals st)); simpl; done.
Qed.

Lemma getSignals_store `{Externals} user since st :
  (getSignals user since st).2 = st.
Proof. unfold getSignals. destruct (sinceFilter since); done. Qed.

Lemma getFeed_store `{Externals} user since st :
  (getFeed user since st).2 = st.
Proof. unfold getFeed. destruct (sinceFilter since); done. Qed.

(** A created post starts with no likes (and no comments). *)
Lemma createFeed_201 env user imageUrl caption st feedPost st' :
  createFeed env user imageUrl caption st
    = (mkResponse 201 (BFeed feedPost), st') ->
  f_likes feedPost = [] /\ f_comments feedPost = [] /\
  st' = set_feeds st (feeds st ++ [feedPost]).
Proof.
  unfold createFeed.
  destruct (negb (truthy imageUrl) || negb (truthy caption)); simpl; [done|].
  unfold insertFeed. case_decide; simpl; [done|].
  by intros [= <- <-].
Qed.

Lemma createFeed_likes_unique env user imageUrl caption st :
  likes_unique st ->
  likes_unique (createFeed env user imageUrl caption st).2.
Proof.
  intros Hinv. unfold createFeed.
  destruct (negb (truthy imageUrl) || negb (truthy caption)); simpl; [done|].
  unfold insertFeed. case_decide; simpl; [done|].
  apply likes_unique_snoc; [done|]. simpl. constructor.
Qed.

Lemma likeFeed_likes_unique `{Externals} user id st :
  likes_unique st -> likes_unique (likeFeed user id st).2.
Proof.
  intros Hinv.
  destruct (findFeedById id (feeds st)) as [[[i feedPost]|]|e] eqn:Hfound.
  - rewrite (likeFeed_found user id st i feedPost Hfound). simpl.
    apply likes_unique_insert; [done|]. simpl.
    apply toggle_NoDup.
    apply findFeedById_Some in Hfound as (_ & Hlook & _).
    by apply (likes_unique_lookup st i).
  - unfold likeFeed. by rewrite Hfound.
  - unfold likeFeed. by rewrite Hfound.
Qed.

Lemma commentFeed_likes_unique `{Externals} env user id text st :
  likes_unique st -> likes_unique (commentFeed env user id text st).2.
Proof.
  intros Hinv. unfold commentFeed.
  destruct (negb (truthy text)); simpl; [done|].
  destruct (findFeedById id (feeds st)) as [[[i feedPost]|]|e] eqn:Hfound;
    simpl; [|done..].
  apply likes_unique_insert; [done|]. simpl.
  apply findFeedById_Some in Hfound as (_ & Hlook & _).
  by apply (likes_unique_lookup st i).
Qed.

Lemma withAuth_likes_unique `{Externals} env authorization st next :
  likes_unique st ->
  (forall user, likes_unique (next user).2) ->
  likes_unique (withAuth env authorization st next).2.
Proof.
  intros Hinv Hnext. unfold withAuth.
  destruct (authMiddleware (now env) authorization st); simpl; auto.
Qed.

Lemma withAdmin_likes_unique `{Externals} env authorization st next :
  likes_unique st ->
  (forall user, likes_unique (next user).2) ->
  likes_unique (withAdmin env authorization st next).2.
Proof.
  intros Hinv Hnext. unfold withAdmin.
  apply withAuth_likes_unique; [done|]. intros user.
  destruct (adminMiddleware user); simpl; auto.
Qed.

Lemma handle_likes_unique `{Externals} env req st :
  likes_unique st -> likes_unique (handle env req st).2.
Proof.
  intros Hinv. destruct req; simpl.
  - by apply userSignup_likes_unique.
  - by apply adminSignup_likes_unique.
  - by rewrite userLogin_store.
  - by rewrite adminLogin_store.
  - done.
  - apply withAdmin_likes_unique; [done|]. intros user.
    by apply createSignal_likes_unique.
  - apply withAuth_likes_unique; [done|]. intros user.
    by rewrite getSignals_store.
  - apply withAdmin_likes_unique; [done|]. intros user.
    by apply createFeed_likes_unique.
  - apply withAuth_likes_unique; [done|]. intros user.
    by rewrite getFeed_store.
  - apply withAuth_likes_unique; [done|]. intros user.
    by apply likeFeed_likes_unique.
  - apply withAuth_likes_unique; [done|]. intros user.
    by apply commentFeed_likes_unique.
Qed.

Lemma reachable_likes_unique `{Externals} st :
  reachable st -> likes_unique st.
Proof.
  induction 1 as [|env req st Hreach IH].
  - constructor.
  - by apply handle_likes_unique.
Qed.

Lemma Sample_booted : Sample.booted = mkStore [Sample.root] [] [Sample.post1].
Proof. vm_compute. reflexivity. Qed.

Lemma Sample_booted_reachable : reachable (H := Sample.externals) Sample.booted.
Proof.
  unfold Sample.booted.
  apply (reachable_handle (H := Sample.externals)).
  apply (reachable_handle (H := Sample.externals)).
  apply (reachable_empty (H := Sample.externals)).
Qed.

(** C6: on an existing post of the running server, the like toggle removes
    the caller's id from the likes when it is there and appends it when it
    is not; two toggles in a row by the same user give the post back with
    the likes it had, as a collection (the same members, each once), and
    nothing else changed. *)
Theorem C6_double_toggle_restores_likes `{Externals}
    user id st i feedPost :
  reachable st ->
  findFeedById id (feeds st) = Ok (Some (i, feedPost)) ->
  exists once twice,
    let st1 := set_feeds st (<[i := once]> (feeds st)) in
    let st2 := set_feeds st (<[i := twice]> (feeds st)) in
    likeFeed user id st = (mkResponse 200 (BFeed once), st1) /\
    likeFeed user id st1 = (mkResponse 200 (BFeed twice), st2) /\
    (u_id user ∈ f_likes feedPost ->
       f_likes once = filter (fun x => x <> u_id user) (f_likes feedPost) /\
       u_id user ∉ f_likes once) /\
    (u_id user ∉ f_likes feedPost ->
       f_likes once = f_likes feedPost ++ [u_id user]) /\
    f_likes twice ≡ₚ f_likes feedPost /\
    (forall x, x ∈ f_likes twice <-> x ∈ f_likes feedPost) /\
    twice = set_likes feedPost (f_likes twice).
Proof.
  intros Hreach Hfound.
  pose proof (reachable_likes_unique st Hreach) as Hinv.
  pose proof Hfound as (_ & Hlook & _)%findFeedById_Some.
  pose proof (likes_unique_lookup st i feedPost Hinv Hlook) as Hnd.
  set (uid := u_id user).
  set (once := set_likes feedPost (toggle uid (f_likes feedPost))).
  set (twice := set_likes once (toggle uid (f_likes once))).
  exists once, twice. simpl.
  assert (findFeedById id (<[i := once]> (feeds st)) = Ok (Some (i, once)))
    as Hfound1 by (by apply (findFeedById_insert id (feeds st) i feedPost)).
  split_and!.
  - by apply likeFeed_found.
  - rewrite (likeFeed_found user id _ i once) by done.
    simpl. unfold set_feeds. simpl. by rewrite list_insert_insert_eq.
  - intros Hin. by apply toggle_present.
  - intros Hnot. by apply toggle_absent.
  - by apply toggle_toggle.
  - intros x. by rewrite (toggle_toggle uid (f_likes feedPost) Hnd).
  - done.
Qed.

Lemma C6_double_toggle_restores_likes_witness :
  exists once twice,
    likeFeed (H := Sample.externals) Sample.alice Sample.post1_id
             Sample.booted
      = (mkResponse 200 (BFeed once),
         set_feeds Sample.booted (<[0%nat := once]> (feeds Sample.booted))) /\
    likeFeed (H := Sample.externals) Sample.alice Sample.post1_id
             (set_feeds Sample.booted (<[0%nat := once]> (feeds Sample.booted)))
      = (mkResponse 200 (BFeed twice),
         set_feeds Sample.booted (<[0%nat := twice]> (feeds Sample.booted))) /\
    f_likes once = [1%N] /\
    f_likes twice ≡ₚ [].
Proof.
  destruct (C6_double_toggle_restores_likes (H := Sample.externals)
              Sample.alice Sample.post1_id Sample.booted 0%nat Sample.post1)
    as (once & twice & Hone & Htwo & _ & Habsent & Hperm & _).
  - exact Sample_booted_reachable.
  - vm_compute. reflexivity.
  - exists once, twice. split_and!; [exact Hone|exact Htwo| |exact Hperm].
    apply Habsent. simpl. apply not_elem_of_nil.
Defined.

(** C7: no user id occurs twice in the likes of a post.  A post is created
    with no likes; every request the server handles, the like toggle in
    particular, keeps the likes of every stored post free of repetitions;
    so the property holds of every post the server can come to store,
    whatever the sequence of requests and callers. *)
Theorem C7_likes_unique_invariant `{Externals} :
  (forall env user imageUrl caption st feedPost st',
      createFeed env user imageUrl caption st
        = (mkResponse 201 (BFeed feedPost), st') ->
      f_likes feedPost = []) /\
  (forall user id st,
      likes_unique st -> likes_unique (likeFeed user id st).2) /\
  (forall env req st,
      likes_unique st -> likes_unique (handle env req st).2) /\
  (forall st, reachable st ->
      forall f, f ∈ feeds st -> NoDup (f_likes f)).
Proof.
  split_and!.
  - intros env user imageUrl caption st feedPost st' Hrun.
    by apply createFeed_201 in Hrun as [Hlikes _].
  - intros user id st. apply likeFeed_likes_unique.
  - intros env req st. apply handle_likes_unique.
  - intros st Hreach f Hf.
    pose proof (reachable_likes_unique st Hreach) as Hinv.
    unfold likes_unique in Hinv. rewrite Forall_forall in Hinv.
    by apply Hinv.
Qed.

Lemma C7_likes_unique_invariant_witness :
  likes_unique
    (likeFeed (H := Sample.externals) Sample.vip Sample.post1_id
       (likeFeed (H := Sample.externals) Sample.alice Sample.post1_id
          Sample.booted).2).2.
Proof.
  destruct (C7_likes_unique_invariant (H := Sample.externals))
    as (_ & Hlike & _ & Hreach).
  apply Hlike, Hlike.
  apply Forall_forall. intros f Hf.
  exact (Hreach Sample.booted Sample_booted_reachable f Hf).
Defined.

(** ** Admin-only routes *)

(** C8: for every caller [authMiddleware] lets through whose role is not
    [admin], POST /api/feed is answered 403 and the store, the feed
    collection included, is left as it was. *)
Theorem C8_non_admin_cannot_post `{Externals}
    env authorization imageUrl caption st user :
  authMiddleware (now env) authorization st = inr user ->
  u_role user <> RAdmin ->
  handle env (PostFeed authorization imageUrl caption) st
    = (jsonError 403 "Admin access required", st).
Proof.
  intros Hauth Hrole. simpl. unfold withAdmin, withAuth.
  rewrite Hauth. unfold adminMiddleware. by rewrite decide_True.
Qed.

Lemma C8_non_admin_cannot_post_witness :
  handle (H := Sample.externals) Sample.env0
         (PostFeed (Sample.bearer Sample.alice) (Some "http://x/j.png")
                   (Some "mine"))
         Sample.store1
    = (jsonError 403 "Admin access required", Sample.store1).
Proof.
  apply (C8_non_admin_cannot_post (H := Sample.externals) Sample.env0
           (Sample.bearer Sample.alice) (Some "http://x/j.png") (Some "mine")
           Sample.store1 Sample.alice).
  - vm_compute. reflexivity.
  - discriminate.
Defined.

(** ** Comments *)

Lemma truthy_false (text : option string) :
  truthy text = false <-> text = None \/ text = Some EmptyString.
Proof.
  destruct text as [[|c s]|]; simpl; split; try done; auto.
  intros [Hnone|Hempty]; done.
Qed.

(** An id that does not cast to an ObjectId is neither found nor missing:
    the lookup rejects and the route answers 500. *)
Lemma commentFeed_cast_error `{Externals} env user id text st :
  truthy text = true ->
  castObjectId id = None ->
  commentFeed env user id text st = (jsonError 500 "Server error", st).
Proof.
  intros Htext Hcast. unfold commentFeed, findFeedById.
  by rewrite Htext, Hcast.
Qed.

(** C9 (amended): the comment route answers 400 when the text is empty;
    with a text, it answers 404 when the post id is a well-formed ObjectId
    that finds no post, and 500 when the post id does not cast to an
    ObjectId at all; and with a text and a post it answers 200 with the
    post it saved over the one found, which has exactly one more comment,
    placed last, made of the caller's id, the text and the current time,
    and the same id, image URL, caption, likes, creator, creation time and
    earlier comments.  Nothing else in the store changes, and the three
    failures write nothing. *)
Theorem C9_comment_appends_only `{Externals} env user id text st :
  (truthy text = false ->
   commentFeed env user id text st
     = (jsonError 400 "Comment text is required", st)) /\
  (truthy text = true ->
   forall oid,
     castObjectId id = Some oid ->
     (forall f, f ∈ feeds st -> f_id f <> oid) ->
     commentFeed env user id text st
       = (jsonError 404 "Feed post not found", st)) /\
  (truthy text = true ->
   findFeedById id (feeds st) = Ok None ->
   commentFeed env user id text st
     = (jsonError 404 "Feed post not found", st)) /\
  (truthy text = true ->
   castObjectId id = None ->
   commentFeed env user id text st
     = (jsonError 500 "Server error", st)) /\
  (truthy text = true ->
   forall i feedPost,
     findFeedById id (feeds st) = Ok (Some (i, feedPost)) ->
     exists updated st',
       commentFeed env user id text st
         = (mkResponse 200 (BFeed updated), st') /\
       f_comments updated =
         f_comments feedPost ++
         [mkComment (fresh_id env) (u_id user) (str text) (now env)] /\
       f_id updated = f_id feedPost /\
       f_imageUrl updated = f_imageUrl feedPost /\
       f_caption updated = f_caption feedPost /\
       f_likes updated = f_likes feedPost /\
       f_createdAt updated = f_createdAt feedPost /\
       f_createdBy updated = f_createdBy feedPost /\
       findFeedById id (feeds st') = Ok (Some (i, updated)) /\
       feeds st' = <[i := updated]> (feeds st) /\
       (forall j, j <> i -> feeds st' !! j = feeds st !! j) /\
       length (feeds st') = length (feeds st) /\
       users st' = users st /\
       signals st' = signals st).
Proof.
  split_and!.
  - unfold commentFeed. by intros ->.
  - intros Htext oid Hcast Hnone. unfold commentFeed, findFeedById.
    rewrite Htext, Hcast. simpl.
    assert (list_find (fun f => f_id f = oid) (feeds st) = None) as ->.
    { apply list_find_None, Forall_forall. intros f Hf. by apply Hnone. }
    done.
  - unfold commentFeed. intros -> Hnone. simpl. by rewrite Hnone.
  - intros Htext Hcast. by apply commentFeed_cast_error.
  - unfold commentFeed.
    intros -> i feedPost Hfound. simpl. rewrite Hfound. simpl.
    eexists _, _. split; [reflexivity|]. simpl. split_and!; try done.
    + by apply (findFeedById_insert id (feeds st) i feedPost).
    + intros j Hj. by rewrite list_lookup_insert_ne.
    + by rewrite length_insert.
Qed.

Lemma C9_comment_appends_only_witness :
  commentFeed (H := Sample.externals) Sample.env0 Sample.alice
              "ffffffffffffffffffffffff" (Some "nice") Sample.store1
    = (jsonError 404 "Feed post not found", Sample.store1) /\
  exists updated st',
    commentFeed (H := Sample.externals) Sample.env0 Sample.alice
                Sample.post1_id (Some "nice") Sample.store1
      = (mkResponse 200 (BFeed updated), st') /\
    f_comments updated = [mkComment 1%N 1%N "nice" 1700000000000] /\
    f_likes updated = [] /\
    feeds st' = [updated].
Proof.
  destruct (C9_comment_appends_only (H := Sample.externals) Sample.env0
              Sample.alice "ffffffffffffffffffffffff" (Some "nice")
              Sample.store1) as (_ & _ & Hmissing & _).
  destruct (C9_comment_appends_only (H := Sample.externals) Sample.env0
              Sample.alice Sample.post1_id (Some "nice")
              Sample.store1) as (_ & _ & _ & _ & Hfound).
  split.
  - apply Hmissing; [reflexivity|vm_compute; reflexivity].
  - destruct (Hfound eq_refl 0%nat Sample.post1)
      as (updated & st' & Hrun & Hcomments & _ & _ & _ & Hlikes & _ & _
          & _ & Hfeeds & _).
    + vm_compute. reflexivity.
    + exists updated, st'. split_and!; [exact Hrun|exact Hcomments|
                                        exact Hlikes|exact Hfeeds].
Defined.

(** C9, as stated, fails for a post id that is not a well-formed ObjectId:
    the id "abc" finds no post (the store's only post has another id, and
    "abc" is not the spelling of any id), yet a comment with a text on it
    is answered 500 "Server error", not 404. *)
Lemma C9_malformed_id_500 :
  truthy (Some "nice") = true /\
  (forall f, f ∈ feeds Sample.store1 ->
             castObjectId (Externals := Sample.externals) "abc"
               <> Some (f_id f)) /\
  commentFeed (H := Sample.externals) Sample.env0 Sample.alice
              "abc" (Some "nice") Sample.store1
    = (jsonError 500 "Server error", Sample.store1).
Proof.
  split_and!; [reflexivity| |vm_compute; reflexivity].
  intros f Hf. vm_compute. discriminate.
Qed.

(** C10: the text check comes before the post lookup: a comment request
    whose text is missing or empty is answered 400, whatever the post id,
    hence also when the id finds no post (or does not even cast); the
    lookup's 404 never shows for such a request, and the same holds of the
    whole route for an authenticated caller. *)
Theorem C10_empty_text_precedes_lookup `{Externals}
    env user authorization id text st :
  text = None \/ text = Some EmptyString ->
  commentFeed env user id text st
    = (jsonError 400 "Comment text is required", st) /\
  (findFeedById id (feeds st) = Ok None ->
   status (commentFeed env user id text st).1 = 400) /\
  (authMiddleware (now env) authorization st = inr user ->
   handle env (PostFeedComment authorization id text) st
     = (jsonError 400 "Comment text is required", st)).
Proof.
  intros Htext%truthy_false.
  assert (commentFeed env user id text st
            = (jsonError 400 "Comment text is required", st)) as Hrun.
  { unfold commentFeed. by rewrite Htext. }
  split_and!.
  - exact Hrun.
  - intros _. by rewrite Hrun.
  - intros Hauth. simpl. unfold withAuth. by rewrite Hauth.
Qed.

Lemma C10_empty_text_precedes_lookup_witness :
  findFeedById (H := Sample.externals) "ffffffffffffffffffffffff"
               (feeds Sample.store1) = Ok None /\
  handle (H := Sample.externals) Sample.env0
         (PostFeedComment (Sample.bearer Sample.alice)
                          "ffffffffffffffffffffffff" None)
         Sample.store1
    = (jsonError 400 "Comment text is required", Sample.store1).
Proof.
  split; [vm_compute; reflexivity|].
  destruct (C10_empty_text_precedes_lookup (H := Sample.externals)
              Sample.env0 Sample.alice (Sample.bearer Sample.alice)
              "ffffffffffffffffffffffff" None Sample.store1)
    as (_ & _ & Hroute).
  - left. reflexivity.
  - apply Hroute. vm_compute. reflexivity.
Defined.

(** * Further properties of the handlers *)

(** ** The authentication middleware *)

Lemma strip_prefix_Some (pat s rest : string) :
  strip_prefix pat s = Some rest -> s = pat +:+ rest.
Proof.
  revert s. induction pat as [|a pat IH]; intros s; simpl.
  - by intros [= ->].
  - destruct s as [|b s]; [done|].
    destruct (Ascii.eqb_spec a b) as [->|Hne]; [|done].
    intros Hrest. by rewrite (IH s Hrest).
Qed.

(** [replace] leaves a string in which the pattern does not occur. *)
Lemma replace_first_absent (pat rep s : string) :
  (forall a b, s <> a +:+ pat +:+ b) -> replace_first pat rep s = s.
Proof.
  induction s as [|c s IH]; intros Habsent; rewrite replace_first_unfold.
  - destruct (strip_prefix pat EmptyString) as [rest|] eqn:Hstrip; [|done].
    apply strip_prefix_Some in Hstrip. by destruct (Habsent EmptyString rest).
  - destruct (strip_prefix pat (String c s)) as [rest|] eqn:Hstrip.
    + apply strip_prefix_Some in Hstrip. by destruct (Habsent EmptyString rest).
    + f_equal. apply IH. intros a b ->.
      by destruct (Habsent (String c a) b).
Qed.

(** X1: [authMiddleware] looks only at what is left of the header once the
    first "Bearer " is taken out; a header in which "Bearer " does not
    occur is taken as the token itself, so a bare token is treated exactly
    like the same token sent with the scheme. *)
Theorem X1_authMiddleware_bare_token `{Externals} presented header st :
  (forall a b, header <> a +:+ "Bearer " +:+ b) ->
  authMiddleware presented (Some header) st
    = authMiddleware presented (Some ("Bearer " +:+ header)) st.
Proof.
  intros Habsent. unfold authMiddleware.
  change (replace_first "Bearer " "" <$> Some header)
    with (Some (replace_first "Bearer " "" header)).
  change (replace_first "Bearer " "" <$> Some ("Bearer " +:+ header))
    with (Some (replace_first "Bearer " "" ("Bearer " +:+ header))).
  by rewrite replace_first_bearer, replace_first_absent.
Qed.

(** Whether [pat] occurs in [s], by the same scan as [replace_first]. *)
Fixpoint occurs (pat s : string) : bool :=
  match strip_prefix pat s with
  | Some _ => true
  | None =>
      match s with
      | EmptyString => false
      | String _ s' => occurs pat s'
      end
  end.

Lemma occurs_false_absent (pat s : string) :
  occurs pat s = false -> forall a b, s <> a +:+ pat +:+ b.
Proof.
  intros Hocc a. revert s Hocc.
  induction a as [|c a IH]; intros s Hocc b ->.
  - destruct (pat +:+ b) as [|c s] eqn:Heq; simpl in Hocc;
      rewrite <- Heq in Hocc; simpl in Hocc;
      by rewrite strip_prefix_app in Hocc.
  - simpl in Hocc.
    destruct (strip_prefix pat (String c (a +:+ pat +:+ b))); [done|].
    by apply (IH (a +:+ pat +:+ b) Hocc b).
Qed.

Lemma X1_authMiddleware_bare_token_witness :
  authMiddleware (H := Sample.externals) 1700000000000
      (Some (jwt_sign (H := Sample.externals) 1700000000000 1%N))
      Sample.store1
    = inr Sample.alice.
Proof.
  rewrite (X1_authMiddleware_bare_token (H := Sample.externals)).
  - vm_compute. reflexivity.
  - apply occurs_false_absent. vm_compute. reflexivity.
Defined.

Lemma findUserById_elem_of id us u :
  findUserById id us = Some u -> u ∈ us /\ u_id u = id.
Proof.
  unfold findUserById. intros [[i v] [Hfind ->]]%fmap_Some.
  apply list_find_Some in Hfind as (Hlook & Hid & _).
  split; [by apply list_elem_of_lookup_2 in Hlook|done].
Qed.

Lemma findUserById_is_Some id us u :
  u ∈ us -> u_id u = id -> is_Some (findUserById id us).
Proof.
  intros Hin Hid. unfold findUserById. apply fmap_is_Some.
  by apply (list_find_elem_of _ _ u).
Qed.

(** X2: whatever the header, [authMiddleware] either refuses with status
    401 or lets the request through as a user that is in the store. *)
Theorem X2_authMiddleware_outcome `{Externals} presented authorization st :
  match authMiddleware presented authorization st with
  | inl res => status res = 401
  | inr user => user ∈ users st
  end.
Proof.
  unfold authMiddleware.
  destruct (replace_first "Bearer " "" <$> authorization) as [[|c token]|];
    [done| |done].
  destruct (jwt_verify presented (String c token)) as [decoded|e]; [|done].
  destruct (findUserById (userId decoded) (users st)) as [user|] eqn:Hfind;
    [|done].
  by apply findUserById_elem_of in Hfind as [Hin _].
Qed.

Section genuine_tokens.
Context `{Externals}.

Hypothesis jws_verify_sign :
  forall p secret, jws_verify (jws_sign p secret) secret = Some p.
Hypothesis jws_sign_nonempty :
  forall p secret, jws_sign p secret <> EmptyString.

(** X3: a token the server issued for a user id is accepted for 24 hours
    (counted in whole seconds) and resolves to the stored user of that id;
    if no such user is stored any more the answer is 401 "User not found",
    and from the expiry on it is 401 "Invalid token", wherever the token
    came from (signup or login) and whatever else the store holds. *)
Theorem X3_authMiddleware_issued_token issued uid presented st :
  authMiddleware presented (Some ("Bearer " +:+ jwt_sign issued uid)) st =
  if decide (presented / 1000 < issued / 1000 + 86400) then
    match findUserById uid (users st) with
    | Some user => inr user
    | None => inl (jsonError 401 "User not found")
    end
  else inl (jsonError 401 "Invalid token").
Proof.
  rewrite authMiddleware_bearer by apply jws_sign_nonempty.
  case_decide as Hwin.
  - by rewrite (jwt_verify_sign jws_verify_sign).
  - rewrite (jwt_verify_expired jws_verify_sign) by lia. done.
Qed.

End genuine_tokens.

Lemma X3_authMiddleware_issued_token_witness :
  authMiddleware (H := Sample.externals) 1700000050000
      (Some ("Bearer " +:+ jwt_sign (H := Sample.externals) 1700000000000 9%N))
      Sample.store1
    = inl (jsonError 401 "User not found").
Proof.
  rewrite (X3_authMiddleware_issued_token (H := Sample.externals)
             Sample_jws_verify_sign Sample_jws_sign_nonempty).
  vm_compute. reflexivity.
Defined.

(** ** Signup and login together *)

Lemma findUserByEmailRole_app_new us u :
  (forall v, v ∈ us -> u_email v <> u_email u) ->
  findUserByEmailRole (u_email u) (u_role u) (us ++ [u]) = Some u.
Proof.
  intros Hnew. unfold findUserByEmailRole.
  rewrite list_find_app_r.
  - simpl. by rewrite decide_True.
  - apply list_find_None, Forall_forall. intros v Hv [Hem _].
    by apply (Hnew v).
Qed.

Lemma findUserByEmailRole_app_other us u role :
  (forall v, v ∈ us -> u_email v <> u_email u) ->
  u_role u <> role ->
  findUserByEmailRole (u_email u) role (us ++ [u]) = None.
Proof.
  intros Hnew Hrole. apply findUserByEmailRole_other_role.
  intros v [Hv| ->%list_elem_of_singleton]%elem_of_app Hem; [|done].
  by destruct (Hnew v Hv).
Qed.

Lemma length_6_nonempty (password : string) :
  (6 <= String.length password)%nat -> password <> EmptyString.
Proof. intros Hlen ->. simpl in Hlen. lia. Qed.

(** The record a successful admin signup stores. *)
Definition signedUpAdmin `{Externals} (env : Env) (email password : string)
  : User :=
  mkUser (fresh_id env) email (bcrypt_hash (salt env) password)
         false RAdmin (now env).

Lemma adminSignup_201 `{Externals} env email password st :
  status (adminSignup env email password st).1 = 201 ->
  adminSignup env email password st =
    (mkResponse 201
       (BAuthAdmin (jwt_sign (now env) (fresh_id env)) (fresh_id env) email),
     set_users st (users st ++ [signedUpAdmin env email password])) /\
  validateSignup email password = [] /\
  (forall v, v ∈ users st -> u_id v <> fresh_id env /\ u_email v <> email).
Proof.
  unfold adminSignup.
  destruct (validateSignup email password); simpl; [|done].
  destruct (findUserByEmail email (users st)); simpl; [done|].
  destruct (insertUser _ (users st)) as [saved|e] eqn:Hins; simpl; [|done].
  intros _. apply insertUser_Ok in Hins as [-> Hfresh]. done.
Qed.

Lemma adminSignup_valid `{Externals} env email password st :
  isEmail email = true -> (6 <= String.length password)%nat ->
  (forall v, v ∈ users st -> u_email v <> email) ->
  (forall v, v ∈ users st -> u_id v <> fresh_id env) ->
  status (adminSignup env email password st).1 = 201.
Proof.
  intros Hem Hpw Hnew Hid. unfold adminSignup.
  rewrite (proj2 (validateSignup_nil email password)) by done. simpl.
  rewrite (proj2 (findUserByEmail_None email (users st))) by done. simpl.
  by rewrite insertUser_fresh.
Qed.

Lemma userSignup_201_valid `{Externals} env email password isPremium st :
  status (userSignup env email password isPremium st).1 = 201 ->
  validateSignup email password = [].
Proof.
  unfold userSignup.
  by destruct (validateSignup email password).
Qed.

(** X4: signup then login.  After a valid user signup, the user login with
    the same address and password is answered 200 with the id the signup
    gave and the stored tier flag, and leaves the store alone (given that
    bcrypt accepts the password against the hash it made of it); a
    password bcrypt rejects gets 401; and the admin login with the very
    same credentials gets 401 too, since it filters on the role. *)
Theorem X4_signup_then_login `{Externals}
    env env' email password isPremium st :
  isEmail email = true ->
  (6 <= String.length password)%nat ->
  (forall v, v ∈ users st -> u_email v <> email) ->
  (forall v, v ∈ users st -> u_id v <> fresh_id env) ->
  bcrypt_compare password (bcrypt_hash (salt env) password) = true ->
  let st' := (userSignup env email password isPremium st).2 in
  userLogin env' email password st'
    = (mkResponse 200
         (BAuthUser (jwt_sign (now env') (fresh_id env)) (fresh_id env)
                    email (Some (default false isPremium))), st') /\
  (forall wrong,
      wrong <> EmptyString ->
      bcrypt_compare wrong (bcrypt_hash (salt env) password) = false ->
      userLogin env' email wrong st'
        = (jsonError 401 "Invalid credentials", st')) /\
  adminLogin env' email password st'
    = (jsonError 401 "Invalid credentials", st').
Proof.
  intros Hem Hpw Hnew Hid Hmatch.
  pose proof (userSignup_valid env email password isPremium st
                Hem Hpw Hnew Hid) as H201.
  apply userSignup_201 in H201 as [-> _]. simpl.
  pose proof (findUserByEmailRole_app_new (users st)
                (signedUp env email password isPremium) Hnew) as Hfound.
  simpl in Hfound.
  split_and!.
  - unfold userLogin.
    rewrite (proj2 (validateLogin_nil email password))
      by (split; [done|by apply length_6_nonempty]).
    simpl. rewrite Hfound. simpl. by rewrite Hmatch.
  - intros wrong Hne Hbad. unfold userLogin.
    rewrite (proj2 (validateLogin_nil email wrong)) by done.
    simpl. rewrite Hfound. simpl. by rewrite Hbad.
  - unfold adminLogin.
    rewrite (proj2 (validateLogin_nil email password))
      by (split; [done|by apply length_6_nonempty]).
    simpl.
    by rewrite (findUserByEmailRole_app_other (users st)
                  (signedUp env email password isPremium) RAdmin Hnew).
Qed.

Lemma X4_signup_then_login_witness :
  let st' := (userSignup (H := Sample.externals)
                (mkEnv 1700000000000 7%N "salt")
                "new@x.com" "abcdef" (Some true) Sample.store1).2 in
  userLogin (H := Sample.externals) Sample.env0 "new@x.com" "abcdef" st'
    = (mkResponse 200
         (BAuthUser (jwt_sign (H := Sample.externals) 1700000000000 7%N)
                    7%N "new@x.com" (Some true)), st').
Proof.
  destruct (X4_signup_then_login (H := Sample.externals)
              (mkEnv 1700000000000 7%N "salt") Sample.env0
              "new@x.com" "abcdef" (Some true) Sample.store1)
    as (Hlogin & _).
  - reflexivity.
  - simpl. lia.
  - intros v Hv. vm_compute in Hv.
    repeat (apply elem_of_cons in Hv as [->|Hv]; [discriminate|]).
    inversion Hv.
  - intros v Hv. vm_compute in Hv.
    repeat (apply elem_of_cons in Hv as [->|Hv]; [discriminate|]).
    inversion Hv.
  - vm_compute. reflexivity.
  - exact Hlogin.
Defined.

(** X5: a valid admin signup with an unused address stores a user with
    role [admin] and tier flag [false] (the schema default) and answers
    201 with the id, the address and the role; afterwards the admin login
    with those credentials succeeds (given that bcrypt accepts the
    password against its own hash) while the user login with the same
    credentials is refused with the opaque 401. *)
Theorem X5_admin_signup_then_login `{Externals}
    env env' email password st :
  isEmail email = true ->
  (6 <= String.length password)%nat ->
  (forall v, v ∈ users st -> u_email v <> email) ->
  (forall v, v ∈ users st -> u_id v <> fresh_id env) ->
  bcrypt_compare password (bcrypt_hash (salt env) password) = true ->
  let created := mkUser (fresh_id env) email
                        (bcrypt_hash (salt env) password) false RAdmin
                        (now env) in
  let st' := set_users st (users st ++ [created]) in
  adminSignup env email password st
    = (mkResponse 201
         (BAuthAdmin (jwt_sign (now env) (fresh_id env)) (fresh_id env)
                     email), st') /\
  adminLogin env' email password st'
    = (mkResponse 200
         (BAuthAdmin (jwt_sign (now env') (fresh_id env)) (fresh_id env)
                     email), st') /\
  userLogin env' email password st'
    = (jsonError 401 "Invalid credentials", st').
Proof.
  intros Hem Hpw Hnew Hid Hmatch.
  pose proof (adminSignup_valid env email password st Hem Hpw Hnew Hid)
    as H201.
  apply adminSignup_201 in H201 as (Hrun & _ & _). simpl.
  split_and!.
  - exact Hrun.
  - unfold adminLogin.
    rewrite (proj2 (validateLogin_nil email password))
      by (split; [done|by apply length_6_nonempty]).
    simpl.
    pose proof (findUserByEmailRole_app_new (users st)
                  (signedUpAdmin env email password) Hnew) as Hfound.
    unfold signedUpAdmin in Hfound. simpl in Hfound.
    rewrite Hfound. simpl. by rewrite Hmatch.
  - unfold userLogin.
    rewrite (proj2 (validateLogin_nil email password))
      by (split; [done|by apply length_6_nonempty]).
    simpl.
    pose proof (findUserByEmailRole_app_other (users st)
                  (signedUpAdmin env email password) RUser Hnew) as Hother.
    unfold signedUpAdmin in Hother. simpl in Hother.
    by rewrite Hother.
Qed.

Lemma X5_admin_signup_then_login_witness :
  adminSignup (H := Sample.externals) (mkEnv 1700000000000 2%N "salt")
              "root@x.com" "hunter22" emptyStore
    = (mkResponse 201
         (BAuthAdmin (jwt_sign (H := Sample.externals) 1700000000000 2%N)
                     2%N "root@x.com"),
       mkStore [Sample.root] [] []) /\
  userLogin (H := Sample.externals) Sample.env0 "root@x.com" "hunter22"
            (mkStore [Sample.root] [] [])
    = (jsonError 401 "Invalid credentials", mkStore [Sample.root] [] []).
Proof.
  destruct (X5_admin_signup_then_login (H := Sample.externals)
              (mkEnv 1700000000000 2%N "salt") Sample.env0
              "root@x.com" "hunter22" emptyStore)
    as (Hsignup & _ & Hlogin).
  - reflexivity.
  - simpl. lia.
  - intros v Hv. inversion Hv.
  - intros v Hv. inversion Hv.
  - vm_compute. reflexivity.
  - split; [exact Hsignup|exact Hlogin].
Defined.

(** ** Roles and the admin routes *)

Section admin_gate.
Context `{Externals}.

Hypothesis jws_verify_sign :
  forall p secret, jws_verify (jws_sign p secret) secret = Some p.
Hypothesis jws_sign_nonempty :
  forall p secret, jws_sign p secret <> EmptyString.

Lemma authMiddleware_after_signup st created issued presented :
  (forall v, v ∈ users st -> u_id v <> u_id created) ->
  presented / 1000 < issued / 1000 + 86400 ->
  authMiddleware presented
      (Some ("Bearer " +:+ jwt_sign issued (u_id created)))
      (set_users st (users st ++ [created]))
    = inr created.
Proof.
  intros Hfresh Hwin.
  rewrite authMiddleware_bearer by apply jws_sign_nonempty.
  rewrite (jwt_verify_sign jws_verify_sign) by done. simpl.
  by rewrite findUserById_app_new.
Qed.

(** X7: the role decides the admin routes.  Within its 24 hours, the token
    of an admin signup takes POST /api/signals and POST /api/feed past
    both middlewares, into the handler, as the admin just stored; the
    token of a user signup is stopped at 403 on both, whatever the body,
    and the store is left as it was. *)
Theorem X7_signup_role_gates_admin_routes
    env env' email password isPremium st
    title description type imageUrl caption :
  isEmail email = true ->
  (6 <= String.length password)%nat ->
  (forall v, v ∈ users st -> u_email v <> email) ->
  (forall v, v ∈ users st -> u_id v <> fresh_id env) ->
  now env' / 1000 < now env / 1000 + 86400 ->
  let bearer := Some ("Bearer " +:+ jwt_sign (now env) (fresh_id env)) in
  (let admin := signedUpAdmin env email password in
   let st' := set_users st (users st ++ [admin]) in
   adminSignup env email password st
     = (mkResponse 201
          (BAuthAdmin (jwt_sign (now env) (fresh_id env)) (fresh_id env)
                      email), st') /\
   handle env' (PostSignals bearer title description type) st'
     = createSignal env' admin title description type st' /\
   handle env' (PostFeed bearer imageUrl caption) st'
     = createFeed env' admin imageUrl caption st') /\
  (let user := signedUp env email password isPremium in
   let st' := set_users st (users st ++ [user]) in
   userSignup env email password isPremium st
     = (mkResponse 201
          (BAuthUser (jwt_sign (now env) (fresh_id env)) (fresh_id env)
                     email isPremium), st') /\
   handle env' (PostSignals bearer title description type) st'
     = (jsonError 403 "Admin access required", st') /\
   handle env' (PostFeed bearer imageUrl caption) st'
     = (jsonError 403 "Admin access required", st')).
Proof.
  intros Hem Hpw Hnew Hid Hwin. simpl. split.
  - pose proof (adminSignup_valid env email password st Hem Hpw Hnew Hid)
      as H201.
    apply adminSignup_201 in H201 as (Hrun & _ & _).
    pose proof (authMiddleware_after_signup st
                  (signedUpAdmin env email password) (now env) (now env')
                  Hid Hwin) as Hauth.
    simpl in Hauth.
    split_and!; [exact Hrun| |]; unfold withAdmin, withAuth;
      by rewrite Hauth.
  - pose proof (userSignup_valid env email password isPremium st
                  Hem Hpw Hnew Hid) as H201.
    apply userSignup_201 in H201 as (Hrun & _).
    pose proof (authMiddleware_after_signup st
                  (signedUp env email password isPremium) (now env)
                  (now env') Hid Hwin) as Hauth.
    simpl in Hauth.
    split_and!; [exact Hrun| |]; unfold withAdmin, withAuth;
      by rewrite Hauth.
Qed.

End admin_gate.

Lemma X7_signup_role_gates_admin_routes_witness :
  handle (H := Sample.externals) (mkEnv 1700000001000 16%N "salt")
         (PostFeed (Sample.bearer Sample.root) (Some "http://x/i.png")
                   (Some "hello"))
         (mkStore [Sample.root] [] [])
    = createFeed (mkEnv 1700000001000 16%N "salt") Sample.root
                 (Some "http://x/i.png") (Some "hello")
                 (mkStore [Sample.root] [] []).
Proof.
  destruct (X7_signup_role_gates_admin_routes (H := Sample.externals)
              Sample_jws_verify_sign Sample_jws_sign_nonempty
              (mkEnv 1700000000000 2%N "salt")
              (mkEnv 1700000001000 16%N "salt")
              "root@x.com" "hunter22" None emptyStore
              None None "free" (Some "http://x/i.png") (Some "hello"))
    as [(_ & _ & Hfeed) _].
  - reflexivity.
  - simpl. lia.
  - intros v Hv. inversion Hv.
  - intros v Hv. inversion Hv.
  - vm_compute. reflexivity.
  - exact Hfeed.
Defined.

(** ** What a request can do to the store *)

(** The six ways in which one request changes the store.  Each carries
    what the handler has checked before it writes. *)
Inductive evolves (st : Store) : Store -> Prop :=
  | evolves_same : evolves st st
  | evolves_user u :
      (forall v, v ∈ users st ->
                 u_id v <> u_id u /\ u_email v <> u_email u) ->
      evolves st (set_users st (users st ++ [u]))
  | evolves_signal admin s :
      admin ∈ users st -> u_role admin = RAdmin ->
      s_createdBy s = u_id admin ->
      (forall v, v ∈ signals st -> s_id v <> s_id s) ->
      evolves st (set_signals st (signals st ++ [s]))
  | evolves_feed admin f :
      admin ∈ users st -> u_role admin = RAdmin ->
      f_createdBy f = u_id admin ->
      f_likes f = [] -> f_comments f = [] ->
      f_imageUrl f <> EmptyString -> f_caption f <> EmptyString ->
      (forall v, v ∈ feeds st -> f_id v <> f_id f) ->
      evolves st (set_feeds st (feeds st ++ [f]))
  | evolves_like user i f :
      user ∈ users st -> feeds st !! i = Some f ->
      evolves st
        (set_feeds st
           (<[i := set_likes f (toggle (u_id user) (f_likes f))]>
              (feeds st)))
  | evolves_comment user i f c :
      user ∈ users st -> feeds st !! i = Some f ->
      c_user c = u_id user -> c_text c <> EmptyString ->
      evolves st
        (set_feeds st
           (<[i := set_comments f (f_comments f ++ [c])]> (feeds st))).

(** A sequence of requests, each with what the runtime supplied to it. *)
Fixpoint handleAll `{Externals} (reqs : list (Env * Request)) (st : Store)
  : Store :=
  match reqs with
  | [] => st
  | (env, req) :: rest => handleAll rest (handle env req st).2
  end.

Lemma truthy_str (v : option string) :
  truthy v = true -> str v <> EmptyString.
Proof. by destruct v as [[|c s]|]. Qed.

Lemma authMiddleware_inr `{Externals} presented authorization st user :
  authMiddleware presented authorization st = inr user -> user ∈ users st.
Proof.
  unfold authMiddleware.
  destruct (replace_first "Bearer " "" <$> authorization) as [[|c token]|];
    [done| |done].
  destruct (jwt_verify presented (String c token)) as [decoded|e]; [|done].
  destruct (findUserById (userId decoded) (users st)) as [u|] eqn:Hfind;
    [|done].
  intros [= <-]. by apply findUserById_elem_of in Hfind as [Hin _].
Qed.

Lemma adminMiddleware_None user :
  adminMiddleware user = None -> u_role user = RAdmin.
Proof.
  unfold adminMiddleware. case_decide as Hrole; [done|].
  intros _. by destruct (u_role user).
Qed.

Lemma userSignup_evolves `{Externals} env email password isPremium st :
  evolves st (userSignup env email password isPremium st).2.
Proof.
  unfold userSignup.
  destruct (validateSignup email password); simpl; [|constructor].
  destruct (findUserByEmail email (users st)); simpl; [constructor|].
  destruct (insertUser _ (users st)) as [saved|e] eqn:Hins; simpl;
    [|constructor].
  apply insertUser_Ok in Hins as [-> Hfresh]. by apply evolves_user.
Qed.

Lemma adminSignup_evolves `{Externals} env email password st :
  evolves st (adminSignup env email password st).2.
Proof.
  unfold adminSignup.
  destruct (validateSignup email password); simpl; [|constructor].
  destruct (findUserByEmail email (users st)); simpl; [constructor|].
  destruct (insertUser _ (users st)) as [saved|e] eqn:Hins; simpl;
    [|constructor].
  apply insertUser_Ok in Hins as [-> Hfresh]. by apply evolves_user.
Qed.

Lemma createSignal_evolves env admin title description type st :
  admin ∈ users st -> u_role admin = RAdmin ->
  evolves st (createSignal env admin title description type st).2.
Proof.
  intros Hin Hrole. unfold createSignal.
  destruct (signalTypeOf type) as [t|]; simpl; [|constructor].
  unfold insertSignal. case_decide as Hdup; simpl; [constructor|].
  apply (evolves_signal st admin); [done..|].
  intros v Hv Heq. apply Hdup, Exists_exists. by exists v.
Qed.

Lemma createFeed_evolves env admin imageUrl caption st :
  admin ∈ users st -> u_role admin = RAdmin ->
  evolves st (createFeed env admin imageUrl caption st).2.
Proof.
  intros Hin Hrole. unfold createFeed.
  destruct (truthy imageUrl) eqn:Himg; simpl; [|constructor].
  destruct (truthy caption) eqn:Hcap; simpl; [|constructor].
  unfold insertFeed. case_decide as Hdup; simpl; [constructor|].
  apply (evolves_feed st admin); simpl; try done.
  - by apply truthy_str.
  - by apply truthy_str.
  - intros v Hv Heq. apply Hdup, Exists_exists. by exists v.
Qed.

Lemma likeFeed_evolves `{Externals} user id st :
  user ∈ users st -> evolves st (likeFeed user id st).2.
Proof.
  intros Hin.
  destruct (findFeedById id (feeds st)) as [[[i feedPost]|]|e] eqn:Hfound.
  - rewrite (likeFeed_found user id st i feedPost Hfound). simpl.
    apply findFeedById_Some in Hfound as (_ & Hlook & _).
    by apply evolves_like.
  - unfold likeFeed. rewrite Hfound. constructor.
  - unfold likeFeed. rewrite Hfound. constructor.
Qed.

Lemma commentFeed_evolves `{Externals} env user id text st :
  user ∈ users st -> evolves st (commentFeed env user id text st).2.
Proof.
  intros Hin. unfold commentFeed.
  destruct (truthy text) eqn:Htext; simpl; [|constructor].
  destruct (findFeedById id (feeds st)) as [[[i feedPost]|]|e] eqn:Hfound;
    simpl; [|constructor..].
  apply findFeedById_Some in Hfound as (_ & Hlook & _).
  apply (evolves_comment st user); simpl; [done..|].
  by apply truthy_str.
Qed.

Lemma withAuth_evolves `{Externals} env authorization st next :
  (forall user, user ∈ users st -> evolves st (next user).2) ->
  evolves st (withAuth env authorization st next).2.
Proof.
  intros Hnext. unfold withAuth.
  destruct (authMiddleware (now env) authorization st) as [res|user]
    eqn:Hauth; simpl; [constructor|].
  apply Hnext. by apply authMiddleware_inr in Hauth.
Qed.

Lemma withAdmin_evolves `{Externals} env authorization st next :
  (forall admin, admin ∈ users st -> u_role admin = RAdmin ->
                 evolves st (next admin).2) ->
  evolves st (withAdmin env authorization st next).2.
Proof.
  intros Hnext. unfold withAdmin.
  apply withAuth_evolves. intros user Hin.
  destruct (adminMiddleware user) as [res|] eqn:Hadmin; simpl;
    [constructor|].
  apply Hnext; [done|]. by apply adminMiddleware_None.
Qed.

(** Every request changes the store in one of those six ways. *)
Lemma handle_evolves `{Externals} env req st :
  evolves st (handle env req st).2.
Proof.
  destruct req; simpl.
  - apply userSignup_evolves.
  - apply adminSignup_evolves.
  - rewrite userLogin_store. constructor.
  - rewrite adminLogin_store. constructor.
  - constructor.
  - apply withAdmin_evolves. intros admin Hin Hrole.
    by apply createSignal_evolves.
  - apply withAuth_evolves. intros user Hin.
    rewrite getSignals_store. constructor.
  - apply withAdmin_evolves. intros admin Hin Hrole.
    by apply createFeed_evolves.
  - apply withAuth_evolves. intros user Hin.
    rewrite getFeed_store. constructor.
  - apply withAuth_evolves. intros user Hin. by apply likeFeed_evolves.
  - apply withAuth_evolves. intros user Hin. by apply commentFeed_evolves.
Qed.

(** ** Keys *)

(** No two users share an [_id] or an address; no two signals and no two
    posts share an [_id]. *)
Definition keys_unique (st : Store) : Prop :=
  NoDup (u_id <$> users st) /\ NoDup (u_email <$> users st) /\
  NoDup (s_id <$> signals st) /\ NoDup (f_id <$> feeds st).

Lemma NoDup_fmap_snoc {A B} (f : A -> B) (l : list A) (x : A) :
  NoDup (f <$> l) -> (forall y, y ∈ l -> f y <> f x) ->
  NoDup (f <$> l ++ [x]).
Proof.
  intros Hnd Hfresh. rewrite fmap_app. apply NoDup_app.
  split_and!; [done| |apply NoDup_singleton].
  intros k (y & -> & Hy)%list_elem_of_fmap Hin.
  apply list_elem_of_singleton in Hin. by apply (Hfresh y).
Qed.

Lemma fmap_insert_same {A B} (f : A -> B) (l : list A) i x y :
  l !! i = Some x -> f y = f x -> f <$> <[i := y]> l = f <$> l.
Proof.
  intros Hlook Heq. rewrite list_fmap_insert, Heq.
  apply list_insert_id. by rewrite list_lookup_fmap, Hlook.
Qed.

Lemma NoDup_fmap_eq {A B} (f : A -> B) (l : list A) x y :
  NoDup (f <$> l) -> x ∈ l -> y ∈ l -> f x = f y -> x = y.
Proof.
  intros Hnd [i Hi]%list_elem_of_lookup_1 [j Hj]%list_elem_of_lookup_1 Heq.
  assert (i = j) as ->.
  { apply (NoDup_lookup (f <$> l) i j (f x) Hnd).
    - by rewrite list_lookup_fmap, Hi.
    - by rewrite list_lookup_fmap, Hj, Heq. }
  congruence.
Qed.

Lemma evolves_keys_unique st st' :
  evolves st st' -> keys_unique st -> keys_unique st'.
Proof.
  intros Hev (Hid & Hem & Hsig & Hfeed).
  destruct Hev as [|u Hfresh|admin s _ _ _ Hfresh
                   |admin f _ _ _ _ _ _ _ Hfresh
                   |user i f _ Hlook|user i f c _ Hlook _ _];
    unfold keys_unique; simpl.
  - done.
  - split_and!; [| |done..]; apply NoDup_fmap_snoc; try done.
    + intros y Hy. by apply Hfresh.
    + intros y Hy. by apply Hfresh.
  - split_and!; [done..| |done]. by apply NoDup_fmap_snoc.
  - split_and!; [done..|]. by apply NoDup_fmap_snoc.
  - split_and!; [done..|]. by rewrite (fmap_insert_same f_id _ i f).
  - split_and!; [done..|]. by rewrite (fmap_insert_same f_id _ i f).
Qed.

Lemma reachable_keys_unique `{Externals} st :
  reachable st -> keys_unique st.
Proof.
  induction 1 as [|env req st Hreach IH].
  - unfold keys_unique. simpl. split_and!; constructor.
  - apply (evolves_keys_unique st); [apply handle_evolves|done].
Qed.

(** X8: in every store the server can reach, user ids, user addresses,
    signal ids and post ids are each pairwise distinct, so a lookup by id
    or by address returns exactly the stored document: every stored user
    is the one found under its id, and under its address. *)
Theorem X8_keys_unique `{Externals} st :
  reachable st ->
  NoDup (u_id <$> users st) /\ NoDup (u_email <$> users st) /\
  NoDup (s_id <$> signals st) /\ NoDup (f_id <$> feeds st) /\
  (forall u, u ∈ users st ->
     findUserById (u_id u) (users st) = Some u /\
     findUserByEmail (u_email u) (users st) = Some u).
Proof.
  intros Hreach.
  destruct (reachable_keys_unique st Hreach) as (Hid & Hem & Hsig & Hfeed).
  split_and!; [done..|]. intros u Hu. split.
  - destruct (findUserById_is_Some (u_id u) (users st) u Hu eq_refl)
      as [v Hv].
    rewrite Hv. f_equal.
    apply findUserById_elem_of in Hv as [Hin Heq].
    by apply (NoDup_fmap_eq u_id (users st)).
  - destruct (findUserByEmail_elem_of (u_email u) (users st) u Hu eq_refl)
      as [v Hv].
    rewrite Hv. f_equal. unfold findUserByEmail in Hv.
    apply fmap_Some in Hv as ([i w] & Hfind & ->).
    apply list_find_Some in Hfind as (Hlook & Heq & _). simpl.
    apply list_elem_of_lookup_2 in Hlook.
    by apply (NoDup_fmap_eq u_email (users st)).
Qed.

Lemma X8_keys_unique_witness :
  NoDup (u_email <$> users Sample.booted) /\
  findUserByEmail "root@x.com" (users Sample.booted) = Some Sample.root.
Proof.
  destruct (X8_keys_unique (H := Sample.externals) Sample.booted
              Sample_booted_reachable) as (_ & Hem & _ & _ & Hfind).
  split; [exact Hem|].
  apply (Hfind Sample.root). rewrite Sample_booted.
  apply list_elem_of_singleton. reflexivity.
Defined.

(** ** Nothing is deleted *)

(** A post as it was, up to likes and added comments. *)
Definition post_kept (f f' : Feed) : Prop :=
  f_id f' = f_id f /\ f_imageUrl f' = f_imageUrl f /\
  f_caption f' = f_caption f /\ f_createdAt f' = f_createdAt f /\
  f_createdBy f' = f_createdBy f /\
  f_comments f `prefix_of` f_comments f'.

(** A store that still has all it had: the old users and signals,
    unchanged and in place, and every old post in place. *)
Definition store_kept (st st' : Store) : Prop :=
  users st `prefix_of` users st' /\
  signals st `prefix_of` signals st' /\
  forall i f, feeds st !! i = Some f ->
              exists f', feeds st' !! i = Some f' /\ post_kept f f'.

Lemma post_kept_refl f : post_kept f f.
Proof. unfold post_kept. split_and!; done. Qed.

Lemma post_kept_trans f g h : post_kept f g -> post_kept g h -> post_kept f h.
Proof.
  unfold post_kept. intros (?&?&?&?&?&?) (?&?&?&?&?&?).
  split_and!; try congruence. by etrans.
Qed.

Lemma store_kept_refl st : store_kept st st.
Proof.
  split_and!; [done..|]. intros i f Hf. exists f.
  split; [done|apply post_kept_refl].
Qed.

Lemma store_kept_trans st1 st2 st3 :
  store_kept st1 st2 -> store_kept st2 st3 -> store_kept st1 st3.
Proof.
  intros (Hu1 & Hs1 & Hf1) (Hu2 & Hs2 & Hf2).
  split_and!; [by etrans..|]. intros i f Hf.
  destruct (Hf1 i f Hf) as (g & Hg & Hfg).
  destruct (Hf2 i g Hg) as (h & Hh & Hgh).
  exists h. split; [done|]. by apply (post_kept_trans f g h).
Qed.

Lemma store_kept_insert st i f f' :
  feeds st !! i = Some f -> post_kept f f' ->
  store_kept st (set_feeds st (<[i := f']> (feeds st))).
Proof.
  intros Hlook Hkept. split_and!; [done..|]. simpl. intros j g Hg.
  destruct (decide (i = j)) as [->|Hne].
  - exists f'. rewrite list_lookup_insert_eq by (by eapply lookup_lt_Some).
    split; [done|]. congruence.
  - exists g. rewrite list_lookup_insert_ne by done.
    split; [done|apply post_kept_refl].
Qed.

Lemma evolves_store_kept st st' : evolves st st' -> store_kept st st'.
Proof.
  intros [|u _|admin s _ _ _ _|admin f _ _ _ _ _ _ _ _
          |user i f _ Hlook|user i f c _ Hlook _ _].
  - apply store_kept_refl.
  - split_and!; simpl; [by apply prefix_app_r|done|].
    intros i f Hf. exists f. split; [done|apply post_kept_refl].
  - split_and!; simpl; [done|by apply prefix_app_r|].
    intros i f Hf. exists f. split; [done|apply post_kept_refl].
  - split_and!; simpl; [done..|].
    intros i g Hg. exists g.
    split; [by apply lookup_app_l_Some|apply post_kept_refl].
  - apply (store_kept_insert st i f); [done|].
    unfold post_kept. simpl. split_and!; done.
  - apply (store_kept_insert st i f); [done|].
    unfold post_kept. simpl. split_and!; try done.
    by apply prefix_app_r.
Qed.

Lemma handleAll_store_kept `{Externals} reqs st :
  store_kept st (handleAll reqs st).
Proof.
  revert st. induction reqs as [|[env req] reqs IH]; intros st; simpl.
  - apply store_kept_refl.
  - apply (store_kept_trans st (handle env req st).2); [|apply IH].
    apply evolves_store_kept, handle_evolves.
Qed.

(** X9: no route deletes or rewrites.  Across any sequence of requests the
    users and the signals the store held are still there, unchanged and in
    the same place, with new ones only added after them; every post is
    still at its position with the same id, image URL, caption, creator
    and creation time, and its comments are an initial segment of the
    comments it has now. *)
Theorem X9_nothing_deleted `{Externals} reqs st :
  let st' := handleAll reqs st in
  users st `prefix_of` users st' /\
  signals st `prefix_of` signals st' /\
  (forall i f,
      feeds st !! i = Some f ->
      exists f',
        feeds st' !! i = Some f' /\
        f_id f' = f_id f /\ f_imageUrl f' = f_imageUrl f /\
        f_caption f' = f_caption f /\ f_createdAt f' = f_createdAt f /\
        f_createdBy f' = f_createdBy f /\
        f_comments f `prefix_of` f_comments f').
Proof. apply handleAll_store_kept. Qed.

(** ** Signing up twice *)

Lemma signup_address_taken `{Externals} env email password isPremium st u :
  u ∈ users st -> u_email u = email ->
  isEmail email = true -> (6 <= String.length password)%nat ->
  userSignup env email password isPremium st
    = (jsonError 400 "Email already exists", st) /\
  adminSignup env email password st
    = (jsonError 400 "Email already exists", st).
Proof.
  intros Hin Hem Hvalid Hlen.
  destruct (findUserByEmail_elem_of email (users st) u Hin Hem) as [w Hw].
  unfold userSignup, adminSignup.
  rewrite (proj2 (validateSignup_nil email password)) by done.
  simpl. by rewrite Hw.
Qed.

Lemma elem_of_prefix {A} (l k : list A) x : l `prefix_of` k -> x ∈ l -> x ∈ k.
Proof. intros [m ->] Hx. apply elem_of_app. by left. Qed.

(** X6: an address can sign up once.  After a signup answered 201, on
    either route, and after any sequence of further requests, every
    signup with the same address, on either route and with whatever
    password of six characters or more, is answered 400 "Email already
    exists" and stores nothing. *)
Theorem X6_signup_not_repeatable `{Externals}
    env email password isPremium st reqs env' password' isPremium' :
  (6 <= String.length password')%nat ->
  (status (userSignup env email password isPremium st).1 = 201 ->
   let later :=
     handleAll reqs (userSignup env email password isPremium st).2 in
   userSignup env' email password' isPremium' later
     = (jsonError 400 "Email already exists", later) /\
   adminSignup env' email password' later
     = (jsonError 400 "Email already exists", later)) /\
  (status (adminSignup env email password st).1 = 201 ->
   let later := handleAll reqs (adminSignup env email password st).2 in
   userSignup env' email password' isPremium' later
     = (jsonError 400 "Email already exists", later) /\
   adminSignup env' email password' later
     = (jsonError 400 "Email already exists", later)).
Proof.
  intros Hpw'.
  assert (forall created,
             u_email created = email ->
             validateSignup email password = [] ->
             let later :=
               handleAll reqs (set_users st (users st ++ [created])) in
             userSignup env' email password' isPremium' later
               = (jsonError 400 "Email already exists", later) /\
             adminSignup env' email password' later
               = (jsonError 400 "Email already exists", later)) as Hdup.
  { intros created Hcem [Hem _]%validateSignup_nil. cbv zeta.
    apply (signup_address_taken _ _ _ _ _ created); [|done..].
    destruct (handleAll_store_kept reqs
                (set_users st (users st ++ [created]))) as (Hprefix & _).
    apply (elem_of_prefix _ _ _ Hprefix). simpl.
    apply elem_of_app. right. by apply list_elem_of_singleton. }
  split.
  - intros H201. pose proof (userSignup_201_valid _ _ _ _ _ H201) as Hval.
    apply userSignup_201 in H201 as [-> _]. cbv zeta.
    by apply (Hdup (signedUp env email password isPremium)).
  - intros H201. apply adminSignup_201 in H201 as (-> & Hval & _). cbv zeta.
    by apply (Hdup (signedUpAdmin env email password)).
Qed.

Lemma X6_signup_not_repeatable_witness :
  let later :=
    handleAll (H := Sample.externals)
      [(Sample.env0, PostLogout);
       (mkEnv 1700000002000 2%N "salt",
        PostAdminSignup "root@x.com" "hunter22")]
      (userSignup (H := Sample.externals) Sample.env0
         "a@x.com" "abcdef" None emptyStore).2 in
  adminSignup (H := Sample.externals) (mkEnv 1700000005000 8%N "pepper")
              "a@x.com" "another-password" later
    = (jsonError 400 "Email already exists", later).
Proof.
  destruct (X6_signup_not_repeatable (H := Sample.externals)
              Sample.env0 "a@x.com" "abcdef" None emptyStore
              [(Sample.env0, PostLogout);
               (mkEnv 1700000002000 2%N "salt",
                PostAdminSignup "root@x.com" "hunter22")]
              (mkEnv 1700000005000 8%N "pepper") "another-password" None)
    as [Huser _].
  - simpl. lia.
  - destruct Huser as [_ Hadmin]; [vm_compute; reflexivity|].
    exact Hadmin.
Defined.

(** ** References and required fields *)

Definition stored_id (us : list User) (id : ObjectId) : Prop :=
  exists u, u ∈ us /\ u_id u = id.

Definition stored_admin (us : list User) (id : ObjectId) : Prop :=
  exists u, u ∈ us /\ u_id u = id /\ u_role u = RAdmin.

(** What holds of every stored post: its creator is a stored admin, its
    likers and comment authors are stored users, and the fields the
    handlers insist on are not empty. *)
Definition post_ok (us : list User) (f : Feed) : Prop :=
  stored_admin us (f_createdBy f) /\
  (forall x, x ∈ f_likes f -> stored_id us x) /\
  (forall c, c ∈ f_comments f ->
             stored_id us (c_user c) /\ c_text c <> EmptyString) /\
  f_imageUrl f <> EmptyString /\ f_caption f <> EmptyString.

Definition content_ok (st : Store) : Prop :=
  (forall s, s ∈ signals st -> stored_admin (users st) (s_createdBy s)) /\
  (forall f, f ∈ feeds st -> post_ok (users st) f).

Lemma stored_id_app us u id : stored_id us id -> stored_id (us ++ [u]) id.
Proof.
  intros (v & Hv & Hid). exists v. split; [|done].
  apply elem_of_app. by left.
Qed.

Lemma stored_admin_app us u id :
  stored_admin us id -> stored_admin (us ++ [u]) id.
Proof.
  intros (v & Hv & Hid & Hrole). exists v. split_and!; [|done..].
  apply elem_of_app. by left.
Qed.

Lemma post_ok_app us u f : post_ok us f -> post_ok (us ++ [u]) f.
Proof.
  intros (Hby & Hlikes & Hcomments & Himg & Hcap).
  split_and!; [by apply stored_admin_app| | |done..].
  - intros x Hx. by apply stored_id_app, Hlikes.
  - intros c Hc. destruct (Hcomments c Hc) as [Hid Htext].
    split; [by apply stored_id_app|done].
Qed.

Lemma toggle_elem_of (x uid : ObjectId) (likes : list ObjectId) :
  x ∈ toggle uid likes -> x ∈ likes \/ x = uid.
Proof.
  unfold toggle. destruct (indexOf uid likes) as [i|].
  - intros Hx. left. by apply list_elem_of_delete_inv in Hx.
  - intros [Hx|Hx%list_elem_of_singleton]%elem_of_app; auto.
Qed.

Lemma elem_of_insert_inv {A} (l : list A) i x y :
  y ∈ <[i := x]> l -> y = x \/ y ∈ l.
Proof.
  intros [j Hj]%list_elem_of_lookup_1.
  apply list_lookup_insert_Some in Hj as [(_ & -> & _)|[_ Hj]].
  - by left.
  - right. by apply list_elem_of_lookup_2 in Hj.
Qed.

Lemma evolves_content_ok st st' :
  evolves st st' -> content_ok st -> content_ok st'.
Proof.
  intros Hev [Hsig Hfeed].
  destruct Hev as [|u _|admin s Hin Hrole Hby _
                   |admin f Hin Hrole Hby Hlikes Hcomments Himg Hcap _
                   |user i f Hin Hlook|user i f c Hin Hlook Hc Htext];
    split; simpl.
  - done.
  - done.
  - intros s Hs. by apply stored_admin_app, Hsig.
  - intros f Hf. by apply post_ok_app, Hfeed.
  - intros s' [Hs| ->%list_elem_of_singleton]%elem_of_app; [by apply Hsig|].
    by exists admin.
  - done.
  - done.
  - intros f' [Hf| ->%list_elem_of_singleton]%elem_of_app; [by apply Hfeed|].
    split_and!; [by exists admin| | |done..].
    + rewrite Hlikes. intros x Hx. inversion Hx.
    + rewrite Hcomments. intros c Hc. inversion Hc.
  - done.
  - intros f' [->|Hf]%elem_of_insert_inv; [|by apply Hfeed].
    destruct (Hfeed f (list_elem_of_lookup_2 _ _ _ Hlook))
      as (Hby & Hlikes & Hcomments & Himg & Hcap).
    split_and!; simpl; [done| |done..].
    intros x [Hx| ->]%toggle_elem_of; [by apply Hlikes|].
    by exists user.
  - done.
  - intros f' [->|Hf]%elem_of_insert_inv; [|by apply Hfeed].
    destruct (Hfeed f (list_elem_of_lookup_2 _ _ _ Hlook))
      as (Hby & Hlikes & Hcomments & Himg & Hcap).
    split_and!; simpl; [done..| |done|done].
    intros c' [Hc'| ->%list_elem_of_singleton]%elem_of_app;
      [by apply Hcomments|].
    split; [|done]. exists user. by rewrite Hc.
Qed.

Lemma reachable_content_ok `{Externals} st : reachable st -> content_ok st.
Proof.
  induction 1 as [|env req st Hreach IH].
  - split; simpl; intros x Hx; inversion Hx.
  - apply (evolves_content_ok st); [apply handle_evolves|done].
Qed.

Lemma stored_id_populate us id :
  stored_id us id -> is_Some (populate us id).
Proof.
  intros (u & Hu & Hid). unfold populate. apply fmap_is_Some.
  by apply (findUserById_is_Some id us u).
Qed.

(** X10: references never dangle.  In every store the server can reach,
    each signal and each post was created by a stored user whose role is
    [admin], and each like and each comment belongs to a stored user; so
    [populate] finds every creator and every comment author: the lists of
    GET /api/signals and GET /api/feed carry no [null] in their place. *)
Theorem X10_references_resolve `{Externals} st :
  reachable st ->
  (forall s, s ∈ signals st ->
     (exists u, u ∈ users st /\ u_id u = s_createdBy s /\
                u_role u = RAdmin) /\
     is_Some (sv_createdBy (populateSignal (users st) s))) /\
  (forall f, f ∈ feeds st ->
     (exists u, u ∈ users st /\ u_id u = f_createdBy f /\
                u_role u = RAdmin) /\
     (forall x, x ∈ f_likes f -> exists u, u ∈ users st /\ u_id u = x) /\
     (forall c, c ∈ f_comments f ->
                exists u, u ∈ users st /\ u_id u = c_user c) /\
     is_Some (fv_createdBy (populateFeed (users st) f)) /\
     (forall v, v ∈ fv_comments (populateFeed (users st) f) ->
                is_Some (cv_user v))).
Proof.
  intros Hreach. destruct (reachable_content_ok st Hreach) as [Hsig Hfeed].
  split.
  - intros s Hs. pose proof (Hsig s Hs) as Hby. split; [exact Hby|].
    simpl. destruct Hby as (u & Hu & Hid & _).
    apply stored_id_populate. by exists u.
  - intros f Hf.
    destruct (Hfeed f Hf) as (Hby & Hlikes & Hcomments & _ & _).
    split_and!.
    + exact Hby.
    + exact Hlikes.
    + intros c Hc. by destruct (Hcomments c Hc).
    + simpl. destruct Hby as (u & Hu & Hid & _).
      apply stored_id_populate. by exists u.
    + simpl. intros v (c & -> & Hc)%list_elem_of_fmap. simpl.
      apply stored_id_populate. by destruct (Hcomments c Hc).
Qed.

Lemma X10_references_resolve_witness :
  is_Some (fv_createdBy (populateFeed (users Sample.booted) Sample.post1)).
Proof.
  destruct (X10_references_resolve (H := Sample.externals) Sample.booted
              Sample_booted_reachable) as [_ Hfeed].
  destruct (Hfeed Sample.post1) as (_ & _ & _ & Hby & _); [|exact Hby].
  rewrite Sample_booted. apply list_elem_of_singleton. reflexivity.
Defined.

(** X11: the fields the handlers insist on stay filled.  In every store
    the server can reach, each post has a non-empty image URL and caption
    and each comment a non-empty text. *)
Theorem X11_required_fields `{Externals} st :
  reachable st ->
  forall f, f ∈ feeds st ->
    f_imageUrl f <> EmptyString /\ f_caption f <> EmptyString /\
    forall c, c ∈ f_comments f -> c_text c <> EmptyString.
Proof.
  intros Hreach f Hf.
  destruct (reachable_content_ok st Hreach) as [_ Hfeed].
  destruct (Hfeed f Hf) as (_ & _ & Hcomments & Himg & Hcap).
  split_and!; [done..|]. intros c Hc. by destruct (Hcomments c Hc).
Qed.

Lemma X11_required_fields_witness :
  f_imageUrl Sample.post1 <> EmptyString /\
  f_caption Sample.post1 <> EmptyString.
Proof.
  destruct (X11_required_fields (H := Sample.externals) Sample.booted
              Sample_booted_reachable Sample.post1) as (Himg & Hcap & _).
  - rewrite Sample_booted. apply list_elem_of_singleton. reflexivity.
  - split; [exact Himg|exact Hcap].
Defined.

(** ** Statuses *)

(** The statuses each route can answer with. *)
Definition statusesOf (req : Request) : list Z :=
  match req with
  | PostUserSignup _ _ _ | PostAdminSignup _ _ => [201; 400; 500]
  | PostUserLogin _ _ | PostAdminLogin _ _ => [200; 400; 401; 500]
  | PostLogout => [200]
  | PostSignals _ _ _ _ | PostFeed _ _ _ => [201; 400; 401; 403; 500]
  | GetSignals _ _ | GetFeed _ _ => [200; 401; 500]
  | PostFeedLike _ _ => [200; 401; 404; 500]
  | PostFeedComment _ _ _ => [200; 400; 401; 404; 500]
  end.

(** The header a route hands to [authMiddleware], for the routes that are
    behind it. *)
Definition authorizationOf (req : Request) : option (option string) :=
  match req with
  | PostSignals authorization _ _ _ | GetSignals authorization _
  | PostFeed authorization _ _ | GetFeed authorization _
  | PostFeedLike authorization _ | PostFeedComment authorization _ _ =>
      Some authorization
  | _ => None
  end.

Ltac status_in := apply list_elem_of_In; simpl; auto 10.

Ltac split_handler :=
  repeat (simpl in *; try done;
          match goal with
          | |- context [match ?x with _ => _ end] => destruct x eqn:?
          end).

Lemma authMiddleware_inl `{Externals} presented authorization st res :
  authMiddleware presented authorization st = inl res -> status res = 401.
Proof.
  unfold authMiddleware.
  destruct (replace_first "Bearer " "" <$> authorization) as [[|c token]|];
    [by intros [= <-]| |by intros [= <-]].
  destruct (jwt_verify presented (String c token)) as [decoded|e];
    [|by intros [= <-]].
  destruct (findUserById (userId decoded) (users st)); [done|].
  by intros [= <-].
Qed.

Lemma adminMiddleware_Some user res :
  adminMiddleware user = Some res ->
  res = jsonError 403 "Admin access required".
Proof. unfold adminMiddleware. case_decide; [by intros [= <-]|done]. Qed.

Lemma handler_outcome `{Externals} env req st :
  status (handle env req st).1 ∈ statusesOf req /\
  (status (handle env req st).1 = 200 \/
   status (handle env req st).1 = 201 \/
   (handle env req st).2 = st).
Proof.
  destruct req; simpl;
    unfold withAdmin, withAuth, userSignup, adminSignup, userLogin,
      adminLogin, logout, createSignal, createFeed, getSignals, getFeed,
      likeFeed, commentFeed, insertUser, insertSignal,
      insertFeed, findFeedById, sinceFilter;
    try (destruct (authMiddleware (now env) authorization st) as [res|user]
           eqn:Hauth; simpl;
         [apply authMiddleware_inl in Hauth; rewrite Hauth;
          split; [status_in|auto]|]);
    split_handler;
    try match goal with
        | Hadmin : adminMiddleware _ = Some _ |- _ =>
            apply adminMiddleware_Some in Hadmin; subst
        end;
    (split; [status_in|auto]).
Qed.

(** X12: a request that is not answered 200 or 201 leaves the store
    exactly as it found it: validation errors, refused credentials,
    refused tokens, missing posts and caught exceptions write nothing. *)
Theorem X12_failures_write_nothing `{Externals} env req st :
  status (handle env req st).1 <> 200 ->
  status (handle env req st).1 <> 201 ->
  (handle env req st).2 = st.
Proof.
  intros H200 H201.
  destruct (handler_outcome env req st) as [_ [Hs|[Hs|Hs]]]; done.
Qed.

Lemma X12_failures_write_nothing_witness :
  (handle (H := Sample.externals) Sample.env0
          (PostFeedLike (Sample.bearer Sample.alice) "not-an-object-id")
          Sample.store1).2 = Sample.store1.
Proof.
  apply (X12_failures_write_nothing (H := Sample.externals)).
  - vm_compute. discriminate.
  - vm_compute. discriminate.
Defined.

(** X13: the statuses of each route.  The signups answer 201, 400 or 500;
    the logins 200, 400, 401 or 500; logout 200; the two admin routes 201,
    400, 401, 403 or 500; the two lists 200, 401 or 500; the like 200,
    401, 404 or 500; the comment 200, 400, 401, 404 or 500. *)
Theorem X13_route_statuses `{Externals} env req st :
  status (handle env req st).1 ∈ statusesOf req.
Proof. apply handler_outcome. Qed.

(** X14: nothing behind [authMiddleware] runs without it.  When the
    middleware refuses the header, each of the six protected routes
    answers with the middleware's own 401 and leaves the store as it was,
    whatever the body, the query or the post id. *)
Theorem X14_protected_routes_need_auth `{Externals}
    env req authorization st res :
  authorizationOf req = Some authorization ->
  authMiddleware (now env) authorization st = inl res ->
  handle env req st = (res, st) /\ status res = 401.
Proof.
  intros Hreq Hauth. split; [|by apply authMiddleware_inl in Hauth].
  destruct req; simpl in Hreq; try done; injection Hreq as ->; simpl;
    unfold withAdmin, withAuth; by rewrite Hauth.
Qed.

Lemma X14_protected_routes_need_auth_witness :
  handle (H := Sample.externals) Sample.env0
         (PostFeedComment None Sample.post1_id (Some "hi")) Sample.store1
    = (jsonError 401 "Authentication required", Sample.store1).
Proof.
  apply (X14_protected_routes_need_auth (H := Sample.externals)
           Sample.env0 (PostFeedComment None Sample.post1_id (Some "hi"))
           None Sample.store1).
  - reflexivity.
  - reflexivity.
Defined.

(** ** The feed list and the [since] cursor *)

Global Instance newerFeed_total : Total newerFeed.
Proof. intros a b. unfold newerFeed. lia. Qed.

Global Instance newerFeed_trans : Transitive newerFeed.
Proof. intros a b c. unfold newerFeed. lia. Qed.

(** The cursor on posts: created strictly after it, when there is one. *)
Definition postedAfter (gt : option Date) (f : Feed) : Prop :=
  match gt with
  | Some d => d < f_createdAt f
  | None => True
  end.

Global Instance postedAfter_dec gt f : Decision (postedAfter gt f).
Proof. destruct gt; simpl; apply _. Defined.

(** X15: GET /api/feed does not look at who asks.  For every authenticated
    caller and every [since] that is absent, empty or parsable, it answers
    200 with a list whose entries are exactly the stored posts created
    strictly after [since] (all of them without one), each once, whatever
    the caller's tier or role: each entry has the id, image URL, caption,
    likes, creation time, resolved creator and comments (id, text, time
    and resolved author, in order) of its post, every such stored post has
    its entry, and the list is sorted by creation time, newest first. *)
Theorem X15_feed_list `{Externals} env authorization user since gt st :
  authMiddleware (now env) authorization st = inr user ->
  (truthy since = false /\ gt = None) \/
  (truthy since = true /\ parseDate (str since) = gt /\ is_Some gt) ->
  exists l,
    let listed := populateFeed (users st) <$> l in
    let resolved id :=
      (fun u => (u_id u, u_email u)) <$> findUserById id (users st) in
    handle env (GetFeed authorization since) st
      = (mkResponse 200 (BFeeds listed), st) /\
    l ≡ₚ filter (postedAfter gt) (feeds st) /\
    (gt = None -> l ≡ₚ feeds st) /\
    Forall2 (fun v f =>
               fv_id v = f_id f /\ fv_imageUrl v = f_imageUrl f /\
               fv_caption v = f_caption f /\ fv_likes v = f_likes f /\
               fv_createdAt v = f_createdAt f /\
               fv_createdBy v = resolved (f_createdBy f) /\
               Forall2 (fun w c =>
                          cv_id w = c_id c /\ cv_text w = c_text c /\
                          cv_createdAt w = c_createdAt c /\
                          cv_user w = resolved (c_user c))
                       (fv_comments v) (f_comments f))
            listed l /\
    (forall f,
        f ∈ feeds st ->
        (forall d, gt = Some d -> d < f_createdAt f) ->
        exists v, v ∈ listed /\ fv_id v = f_id f /\
                  fv_imageUrl v = f_imageUrl f /\
                  fv_caption v = f_caption f /\ fv_likes v = f_likes f /\
                  fv_createdAt v = f_createdAt f) /\
    (forall v,
        v ∈ listed ->
        exists f, f ∈ feeds st /\ fv_id v = f_id f /\
                  fv_imageUrl v = f_imageUrl f /\
                  fv_caption v = f_caption f /\ fv_likes v = f_likes f /\
                  fv_createdAt v = f_createdAt f /\
                  (forall d, gt = Some d -> d < fv_createdAt v)) /\
    StronglySorted (fun a b => fv_createdAt b <= fv_createdAt a) listed /\
    fv_likes <$> listed = f_likes <$> l.
Proof.
  intros Hauth Hsince. apply sinceFilter_cases in Hsince.
  exists (merge_sort newerFeed (filter (feedMatches gt) (feeds st))).
  assert (merge_sort newerFeed (filter (feedMatches gt) (feeds st))
            ≡ₚ filter (postedAfter gt) (feeds st)) as Hperm.
  { rewrite merge_sort_Permutation. erewrite list_filter_iff; [done|].
    intros f. unfold feedMatches, postedAfter. by destruct gt. }
  cbv zeta. split_and!.
  - simpl. unfold withAuth. rewrite Hauth. unfold getFeed.
    by rewrite Hsince.
  - done.
  - intros ->. rewrite merge_sort_Permutation.
    rewrite filter_all; [done|]. by apply Forall_forall.
  - apply Forall2_fmap_l, Forall_Forall2_diag, Forall_forall.
    intros f Hf. simpl. split_and!; try done.
    apply Forall2_fmap_l, Forall_Forall2_diag, Forall_forall.
    intros c Hc. simpl. done.
  - intros f Hf Hafter.
    exists (populateFeed (users st) f). split; [|done].
    apply list_elem_of_fmap_2. rewrite Hperm.
    apply list_elem_of_filter. split; [|done].
    unfold postedAfter. destruct gt as [d|]; [by apply Hafter|done].
  - intros v (f & -> & Hf)%list_elem_of_fmap.
    rewrite Hperm in Hf.
    apply list_elem_of_filter in Hf as [Hafter Hf].
    exists f. simpl. split_and!; try done.
    intros d ->. exact Hafter.
  - apply (StronglySorted_fmap _ newerFeed); [done|].
    apply StronglySorted_merge_sort; apply _.
  - rewrite <- list_fmap_compose. done.
Qed.

Lemma X15_feed_list_witness :
  exists listed,
    handle (H := Sample.externals) Sample.env0
           (GetFeed (Sample.bearer Sample.alice) None) Sample.store1
      = (mkResponse 200 (BFeeds listed), Sample.store1) /\
    exists v, v ∈ listed /\ fv_id v = 16%N /\
              fv_imageUrl v = "http://x/i.png" /\ fv_caption v = "hello".
Proof.
  destruct (X15_feed_list (H := Sample.externals) Sample.env0
              (Sample.bearer Sample.alice) Sample.alice None None
              Sample.store1) as (l & Hrun & _ & _ & _ & Hshown & _).
  - vm_compute. reflexivity.
  - left. split; reflexivity.
  - eexists. split; [exact Hrun|].
    destruct (Hshown Sample.post1) as (v & Hv & Hid & Himg & Hcap & _).
    + apply list_elem_of_In. left. reflexivity.
    + discriminate.
    + exists v. split_and!; [exact Hv|exact Hid|exact Himg|exact Hcap].
Defined.

(** X16: the [since] cursor at its edges, on both lists.  An empty [since]
    is no cursor at all: the answer is that of the request without it.  A
    non-empty [since] that [new Date] cannot parse makes the query fail,
    and an authenticated caller is answered 500 with the store untouched. *)
Theorem X16_since_edges `{Externals} env authorization user since st :
  (handle env (GetSignals authorization (Some EmptyString)) st
     = handle env (GetSignals authorization None) st /\
   handle env (GetFeed authorization (Some EmptyString)) st
     = handle env (GetFeed authorization None) st) /\
  (authMiddleware (now env) authorization st = inr user ->
   truthy since = true ->
   parseDate (str since) = None ->
   handle env (GetSignals authorization since) st
     = (jsonError 500 "Server error", st) /\
   handle env (GetFeed authorization since) st
     = (jsonError 500 "Server error", st)).
Proof.
  split; [done|].
  intros Hauth Htruthy Hparse. simpl. unfold withAuth. rewrite Hauth.
  unfold getSignals, getFeed, sinceFilter. by rewrite Htruthy, Hparse.
Qed.

Lemma X16_since_edges_witness :
  handle (H := Sample.externals) Sample.env0
         (GetSignals (Sample.bearer Sample.alice) (Some "yesterday"))
         Sample.store1
    = (jsonError 500 "Server error", Sample.store1).
Proof.
  destruct (X16_since_edges (H := Sample.externals) Sample.env0
              (Sample.bearer Sample.alice) Sample.alice (Some "yesterday")
              Sample.store1) as [_ Hbad].
  destruct Hbad as [Hsignals _]; [vm_compute; reflexivity|reflexivity|
                                   vm_compute; reflexivity|].
  exact Hsignals.
Defined.

(** ** Likes *)

(** X17: the like route touches the likes of one post and nothing else.
    An id that does not cast is answered 500 and an id that finds no post
    404, both without a write.  On a post that is found the answer is 200
    with the post saved in its place: same id, image URL, caption,
    comments, creator and creation time, one like more (the caller's id,
    put last) when the caller was not among the likes and one like less
    when it was; the other posts, the users and the signals are as
    before. *)
Theorem X17_like_frame `{Externals} user id st :
  (castObjectId id = None ->
   likeFeed user id st = (jsonError 500 "Server error", st)) /\
  (findFeedById id (feeds st) = Ok None ->
   likeFeed user id st = (jsonError 404 "Feed post not found", st)) /\
  (forall i feedPost,
     findFeedById id (feeds st) = Ok (Some (i, feedPost)) ->
     exists updated st',
       likeFeed user id st = (mkResponse 200 (BFeed updated), st') /\
       f_id updated = f_id feedPost /\
       f_imageUrl updated = f_imageUrl feedPost /\
       f_caption updated = f_caption feedPost /\
       f_comments updated = f_comments feedPost /\
       f_createdAt updated = f_createdAt feedPost /\
       f_createdBy updated = f_createdBy feedPost /\
       (u_id user ∉ f_likes feedPost ->
        f_likes updated = f_likes feedPost ++ [u_id user]) /\
       (u_id user ∈ f_likes feedPost ->
        S (length (f_likes updated)) = length (f_likes feedPost) /\
        forall x, x ∈ f_likes updated -> x ∈ f_likes feedPost) /\
       feeds st' = <[i := updated]> (feeds st) /\
       (forall j, j <> i -> feeds st' !! j = feeds st !! j) /\
       users st' = users st /\
       signals st' = signals st).
Proof.
  split_and!.
  - intros Hcast. unfold likeFeed, findFeedById. by rewrite Hcast.
  - intros Hnone. unfold likeFeed. by rewrite Hnone.
  - intros i feedPost Hfound.
    rewrite (likeFeed_found user id st i feedPost Hfound).
    eexists _, _. split; [reflexivity|]. simpl. split_and!; try done.
    + intros Hnot. by apply toggle_absent.
    + intros Hin. unfold toggle.
      destruct (indexOf (u_id user) (f_likes feedPost)) as [k|] eqn:Hidx.
      * apply indexOf_Some in Hidx. split.
        -- rewrite length_delete by done.
           apply lookup_lt_Some in Hidx. lia.
        -- intros x Hx. by apply list_elem_of_delete_inv in Hx.
      * by apply indexOf_None in Hidx.
    + intros j Hj. by rewrite list_lookup_insert_ne.
Qed.

Lemma X17_like_frame_witness :
  likeFeed (H := Sample.externals) Sample.alice "ffffffffffffffffffffffff"
           Sample.store1
    = (jsonError 404 "Feed post not found", Sample.store1) /\
  likeFeed (H := Sample.externals) Sample.alice "no such id" Sample.store1
    = (jsonError 500 "Server error", Sample.store1).
Proof.
  destruct (X17_like_frame (H := Sample.externals) Sample.alice
              "ffffffffffffffffffffffff" Sample.store1) as (_ & Hmissing & _).
  destruct (X17_like_frame (H := Sample.externals) Sample.alice
              "no such id" Sample.store1) as (Hcast & _ & _).
  split.
  - apply Hmissing. vm_compute. reflexivity.
  - apply Hcast. vm_compute. reflexivity.
Defined.

Lemma toggle_elem_of_iff (x uid : ObjectId) (likes : list ObjectId) :
  NoDup likes ->
  x ∈ toggle uid likes <->
  (x ∈ likes /\ x <> uid) \/ (x = uid /\ uid ∉ likes).
Proof.
  intros Hnd. destruct (decide (uid ∈ likes)) as [Hin|Hnot].
  - destruct (toggle_present uid likes Hnd Hin) as [-> _].
    rewrite list_elem_of_filter. split.
    + intros [Hne Hx]. by left.
    + intros [[Hx Hne]|[_ Hnot]]; [done|]. by destruct Hnot.
  - rewrite toggle_absent by done.
    rewrite elem_of_app, list_elem_of_singleton. split.
    + intros [Hx| ->]; [|by right]. left. split; [done|].
      intros ->. done.
    + intros [[Hx _]|[-> _]]; [by left|by right].
Qed.

(** Likes by two different users commute, as collections. *)
Lemma toggle_comm (a b : ObjectId) (likes : list ObjectId) :
  NoDup likes -> a <> b ->
  toggle a (toggle b likes) ≡ₚ toggle b (toggle a likes).
Proof.
  intros Hnd Hab.
  apply NoDup_Permutation; [by do 2 apply toggle_NoDup..|].
  intros x.
  rewrite (toggle_elem_of_iff x a) by (by apply toggle_NoDup).
  rewrite (toggle_elem_of_iff x b (toggle a likes))
    by (by apply toggle_NoDup).
  rewrite (toggle_elem_of_iff x b likes) by done.
  rewrite (toggle_elem_of_iff x a likes) by done.
  rewrite (toggle_elem_of_iff a b likes) by done.
  rewrite (toggle_elem_of_iff b a likes) by done.
  destruct (decide (x = a)) as [Hxa|Hxa];
    destruct (decide (x = b)) as [Hxb|Hxb];
    destruct (decide (a ∈ likes)) as [Ha|Ha];
    destruct (decide (b ∈ likes)) as [Hb|Hb];
    destruct (decide (x ∈ likes)) as [Hx|Hx];
    intuition congruence.
Qed.

Lemma likeFeed_twice `{Externals} u1 u2 id st i feedPost :
  findFeedById id (feeds st) = Ok (Some (i, feedPost)) ->
  (likeFeed u2 id (likeFeed u1 id st).2).2
    = set_feeds st
        (<[i := set_likes feedPost
                  (toggle (u_id u2) (toggle (u_id u1) (f_likes feedPost)))]>
           (feeds st)).
Proof.
  intros Hfound.
  rewrite (likeFeed_found u1 id st i feedPost Hfound). simpl.
  set (once := set_likes feedPost (toggle (u_id u1) (f_likes feedPost))).
  assert (findFeedById id (<[i := once]> (feeds st)) = Ok (Some (i, once)))
    as Hfound1 by (by apply (findFeedById_insert id (feeds st) i feedPost)).
  rewrite (likeFeed_found u2 id _ i once) by done.
  simpl. unfold set_feeds. simpl. by rewrite list_insert_insert_eq.
Qed.

(** X18: likes by different users do not interfere.  On a post of the
    running server, two users liking (or unliking) one after the other
    leave the same post whichever of them goes first: the same likers,
    each once (the order in the list may differ), and everything else in
    the store identical. *)
Theorem X18_likes_commute `{Externals} a b id st i feedPost :
  reachable st ->
  findFeedById id (feeds st) = Ok (Some (i, feedPost)) ->
  u_id a <> u_id b ->
  exists likes_ab likes_ba,
    (likeFeed b id (likeFeed a id st).2).2
      = set_feeds st (<[i := set_likes feedPost likes_ab]> (feeds st)) /\
    (likeFeed a id (likeFeed b id st).2).2
      = set_feeds st (<[i := set_likes feedPost likes_ba]> (feeds st)) /\
    likes_ab ≡ₚ likes_ba.
Proof.
  intros Hreach Hfound Hne.
  pose proof (reachable_likes_unique st Hreach) as Hinv.
  pose proof Hfound as (_ & Hlook & _)%findFeedById_Some.
  pose proof (likes_unique_lookup st i feedPost Hinv Hlook) as Hnd.
  eexists _, _. split_and!.
  - by apply likeFeed_twice.
  - by apply likeFeed_twice.
  - by apply toggle_comm.
Qed.

Lemma X18_likes_commute_witness :
  exists likes_ab likes_ba,
    (likeFeed (H := Sample.externals) Sample.vip Sample.post1_id
       (likeFeed (H := Sample.externals) Sample.alice Sample.post1_id
          Sample.booted).2).2
      = set_feeds Sample.booted
          (<[0%nat := set_likes Sample.post1 likes_ab]>
             (feeds Sample.booted)) /\
    (likeFeed (H := Sample.externals) Sample.alice Sample.post1_id
       (likeFeed (H := Sample.externals) Sample.vip Sample.post1_id
          Sample.booted).2).2
      = set_feeds Sample.booted
          (<[0%nat := set_likes Sample.post1 likes_ba]>
             (feeds Sample.booted)) /\
    likes_ab ≡ₚ likes_ba.
Proof.
  apply (X18_likes_commute (H := Sample.externals) Sample.alice Sample.vip
           Sample.post1_id Sample.booted 0%nat Sample.post1).
  - exact Sample_booted_reachable.
  - vm_compute. reflexivity.
  - discriminate.
Defined.

(** ** Creating posts and signals *)

Lemma findFeedById_app_new `{Externals} id fs f :
  castObjectId id = Some (f_id f) ->
  (forall v, v ∈ fs -> f_id v <> f_id f) ->
  findFeedById id (fs ++ [f]) = Ok (Some (length fs, f)).
Proof.
  intros Hcast Hfresh. unfold findFeedById. rewrite Hcast. f_equal.
  rewrite list_find_app_r.
  - simpl. by rewrite decide_True.
  - by apply list_find_None, Forall_forall.
Qed.

Lemma toggle_nil (uid : ObjectId) : toggle uid [] = [uid].
Proof. done. Qed.

Lemma toggle_singleton (uid : ObjectId) : toggle uid [uid] = [].
Proof. unfold toggle, indexOf. simpl. by rewrite decide_True. Qed.

(** X19: the life of a post.  POST /api/feed, past the middlewares, is
    answered 400 and stores nothing when the image URL or the caption is
    missing or empty; with both, and an unused generated id, it is
    answered 201 and appends a post with no likes and no comments, made by
    the caller at the current time.  That post is then the one its id
    finds; a first like by a user returns it with exactly that user in the
    likes, and a second like by the same user returns it as created. *)
Theorem X19_post_lifecycle `{Externals} env admin imageUrl caption st :
  (truthy imageUrl = false \/ truthy caption = false ->
   createFeed env admin imageUrl caption st
     = (jsonError 400 "Image URL and caption are required", st)) /\
  (truthy imageUrl = true -> truthy caption = true ->
   (forall v, v ∈ feeds st -> f_id v <> fresh_id env) ->
   let feedPost := mkFeed (fresh_id env) (str imageUrl) (str caption) [] []
                          (now env) (u_id admin) in
   let st' := set_feeds st (feeds st ++ [feedPost]) in
   createFeed env admin imageUrl caption st
     = (mkResponse 201 (BFeed feedPost), st') /\
   forall id liker,
     castObjectId id = Some (fresh_id env) ->
     findFeedById id (feeds st')
       = Ok (Some (length (feeds st), feedPost)) /\
     (likeFeed liker id st').1
       = mkResponse 200 (BFeed (set_likes feedPost [u_id liker])) /\
     likeFeed liker id (likeFeed liker id st').2
       = (mkResponse 200 (BFeed feedPost), st')).
Proof.
  split.
  - unfold createFeed. by intros [-> | ->]; destruct (truthy imageUrl).
  - intros Himg Hcap Hfresh. cbv zeta.
    set (feedPost := mkFeed (fresh_id env) (str imageUrl) (str caption)
                            [] [] (now env) (u_id admin)).
    set (st' := set_feeds st (feeds st ++ [feedPost])).
    split.
    + unfold createFeed, insertFeed. rewrite Himg, Hcap. simpl.
      rewrite decide_False; [done|].
      rewrite Exists_exists. intros (v & Hv & Heq). by apply (Hfresh v).
    + intros id liker Hcast.
      assert (findFeedById id (feeds st')
                = Ok (Some (length (feeds st), feedPost))) as Hfound
        by (by apply findFeedById_app_new).
      split_and!.
      * exact Hfound.
      * by rewrite (likeFeed_found liker id st' _ feedPost Hfound).
      * rewrite (likeFeed_found liker id st' _ feedPost Hfound).
        rewrite toggle_nil.
        set (liked := set_likes feedPost [u_id liker]).
        set (st1 := set_feeds st'
                      (<[length (feeds st) := liked]> (feeds st'))).
        assert (findFeedById id (feeds st1)
                  = Ok (Some (length (feeds st), liked))) as Hfound1
          by (by apply (findFeedById_insert id _ _ feedPost)).
        change (likeFeed liker id
                  (mkResponse 200 (BFeed liked), st1).2)
          with (likeFeed liker id st1).
        rewrite (likeFeed_found liker id st1 _ liked Hfound1).
        change (f_likes liked) with [u_id liker].
        rewrite toggle_singleton. f_equal.
        unfold st1, st', set_feeds. simpl.
        rewrite list_insert_insert_eq.
        rewrite list_insert_id; [done|].
        rewrite lookup_app_r by done.
        by rewrite Nat.sub_diag.
Qed.

Lemma X19_post_lifecycle_witness :
  let st' := set_feeds (mkStore [Sample.root] [] [])
                       (feeds (mkStore [Sample.root] [] []) ++ [Sample.post1])
  in
  createFeed (mkEnv 1700000001000 16%N "salt") Sample.root
             (Some "http://x/i.png") (Some "hello")
             (mkStore [Sample.root] [] [])
    = (mkResponse 201 (BFeed Sample.post1), st') /\
  likeFeed (H := Sample.externals) Sample.alice Sample.post1_id
           (likeFeed (H := Sample.externals) Sample.alice Sample.post1_id
                     st').2
    = (mkResponse 200 (BFeed Sample.post1), st').
Proof.
  destruct (X19_post_lifecycle (H := Sample.externals)
              (mkEnv 1700000001000 16%N "salt") Sample.root
              (Some "http://x/i.png") (Some "hello")
              (mkStore [Sample.root] [] [])) as [_ Hok].
  destruct Hok as [Hcreate Hlikes].
  - reflexivity.
  - reflexivity.
  - intros v Hv. inversion Hv.
  - destruct (Hlikes Sample.post1_id Sample.alice) as (_ & _ & Htwice).
    + vm_compute. reflexivity.
    + split; [exact Hcreate|exact Htwice].
Defined.

Lemma signalTypeOf_Some (type : string) (t : SignalType) :
  signalTypeOf type = Some t <->
  (type = "free" /\ t = Free) \/ (type = "premium" /\ t = Premium).
Proof.
  unfold signalTypeOf. repeat case_decide; subst; split.
  - intros [= <-]. by left.
  - by intros [[_ ->]|[? _]].
  - intros [= <-]. by right.
  - by intros [[? _]|[_ ->]].
  - done.
  - by intros [[? _]|[? _]].
Qed.

Lemma findUserById_prefix id us us' u :
  us `prefix_of` us' -> findUserById id us = Some u ->
  findUserById id us' = Some u.
Proof.
  intros [k ->]. unfold findUserById.
  intros [[i v] [Hfind ->]]%fmap_Some.
  by rewrite (list_find_app_l _ us k i v Hfind).
Qed.

Lemma reachable_handleAll `{Externals} reqs st :
  reachable st -> reachable (handleAll reqs st).
Proof.
  revert st. induction reqs as [|[env req] reqs IH]; intros st Hreach;
    simpl; [done|].
  apply IH. by apply reachable_handle.
Qed.

Lemma authMiddleware_inr_find `{Externals} presented authorization st user :
  authMiddleware presented authorization st = inr user ->
  findUserById (u_id user) (users st) = Some user.
Proof.
  unfold authMiddleware.
  destruct (replace_first "Bearer " "" <$> authorization) as [[|c token]|];
    [done| |done].
  destruct (jwt_verify presented (String c token)) as [decoded|e]; [|done].
  destruct (findUserById (userId decoded) (users st)) as [u|] eqn:Hfind;
    [|done].
  intros [= <-]. pose proof Hfind as [_ Hid]%findUserById_elem_of.
  by rewrite Hid.
Qed.

(** X20: the life of a signal.  POST /api/signals, past the middlewares,
    is answered 400 and stores nothing unless the type is exactly "free"
    or "premium".  Sent by an admin with one of the two types (the
    generated id being unused), it is answered 201 and appends the signal,
    made by that admin at the current time.  From then on, after any
    sequence of further requests, the list GET /api/signals answers to an
    authenticated caller who sends no cursor has an entry with that
    signal's id if and only if the caller is premium or the signal is
    free, and that entry carries the signal's title, description, type and
    creation time and the admin's id and address as its creator. *)
Theorem X20_signal_lifecycle `{Externals}
    env authorization admin title description type st :
  (type <> "free" -> type <> "premium" ->
   createSignal env admin title description type st
     = (jsonError 400 "Invalid signal type", st)) /\
  (forall t,
     (type = "free" /\ t = Free) \/ (type = "premium" /\ t = Premium) ->
     reachable st ->
     authMiddleware (now env) authorization st = inr admin ->
     u_role admin = RAdmin ->
     (forall v, v ∈ signals st -> s_id v <> fresh_id env) ->
     let signal := mkSignal (fresh_id env) title description t (now env)
                            (u_id admin) in
     let st' := set_signals st (signals st ++ [signal]) in
     handle env (PostSignals authorization title description type) st
       = (mkResponse 201 (BSignal signal), st') /\
     forall reqs env' authorization' viewer,
       let later := handleAll reqs st' in
       authMiddleware (now env') authorization' later = inr viewer ->
       exists listed,
         handle env' (GetSignals authorization' None) later
           = (mkResponse 200 (BSignals listed), later) /\
         ((exists v, v ∈ listed /\ sv_id v = fresh_id env) <->
          u_isPremium viewer = true \/ t = Free) /\
         (forall v,
             v ∈ listed -> sv_id v = fresh_id env ->
             sv_title v = title /\ sv_description v = description /\
             sv_type v = t /\ sv_createdAt v = now env /\
             sv_createdBy v = Some (u_id admin, u_email admin))).
Proof.
  split.
  - intros Hfree Hpremium. unfold createSignal, signalTypeOf.
    by rewrite !decide_False.
  - intros t Htype%signalTypeOf_Some Hreach Hauth Hrole Hfresh. cbv zeta.
    set (signal := mkSignal (fresh_id env) title description t (now env)
                            (u_id admin)).
    set (st' := set_signals st (signals st ++ [signal])).
    assert (handle env (PostSignals authorization title description type) st
              = (mkResponse 201 (BSignal signal), st')) as Hrun.
    { simpl. unfold withAdmin, withAuth. rewrite Hauth.
      unfold adminMiddleware.
      rewrite decide_False by (intros Hne; by apply Hne).
      unfold createSignal, insertSignal. rewrite Htype. simpl.
      rewrite decide_False; [done|].
      rewrite Exists_exists. intros (v & Hv & Heq). by apply (Hfresh v). }
    split; [exact Hrun|].
    intros reqs env' authorization' viewer Hviewer.
    set (later := handleAll reqs st') in *.
    assert (reachable later) as Hlater.
    { apply reachable_handleAll.
      replace st' with
        (handle env (PostSignals authorization title description type) st).2
        by (by rewrite Hrun).
      by apply reachable_handle. }
    destruct (handleAll_store_kept reqs st') as (Husers & Hsignals & _).
    fold later in Husers, Hsignals.
    assert (signal ∈ signals later) as Hstored.
    { apply (elem_of_prefix _ _ _ Hsignals). simpl.
      apply elem_of_app. right. by apply list_elem_of_singleton. }
    destruct (reachable_keys_unique later Hlater) as (_ & _ & Hids & _).
    set (q := mkSignalQuery (if u_isPremium viewer then None else Some Free)
                            None).
    set (l := merge_sort newerSignal (filter (signalMatches q)
                                             (signals later))).
    assert (forall s, s ∈ l <-> signalMatches q s /\ s ∈ signals later)
      as Hl.
    { intros s. unfold l.
      by rewrite merge_sort_Permutation, list_elem_of_filter. }
    assert (signalMatches q signal <-> u_isPremium viewer = true \/ t = Free)
      as Hvisible.
    { unfold signalMatches, q. simpl.
      destruct (u_isPremium viewer); simpl; split.
      - intros _. by left.
      - done.
      - intros [Hty _]. by right.
      - intros [Hp|Hty]; [done|]. done. }
    assert (forall v, v ∈ populateSignal (users later) <$> l ->
                      sv_id v = fresh_id env ->
                      v = populateSignal (users later) signal /\ signal ∈ l)
      as Hentry.
    { intros v (s & -> & Hs)%list_elem_of_fmap Hid. simpl in Hid.
      pose proof (proj1 (Hl s) Hs) as [_ Hin].
      assert (s = signal) as ->; [|done].
      by apply (NoDup_fmap_eq s_id (signals later)). }
    exists (populateSignal (users later) <$> l). split_and!.
    + simpl. unfold withAuth. rewrite Hviewer. unfold getSignals. done.
    + split.
      * intros (v & Hv & Hid).
        destruct (Hentry v Hv Hid) as [_ Hin].
        apply Hvisible. by apply Hl in Hin as [Hm _].
      * intros Hshow. exists (populateSignal (users later) signal).
        split; [|done]. apply list_elem_of_fmap_2, Hl.
        split; [by apply Hvisible|done].
    + intros v Hv Hid. destruct (Hentry v Hv Hid) as [-> _]. simpl.
      split_and!; try done. unfold populate.
      rewrite (findUserById_prefix (u_id admin) (users st) (users later)
                 admin); [done| |by apply authMiddleware_inr_find in Hauth].
      exact Husers.
Qed.

Lemma X20_signal_lifecycle_witness :
  let later :=
    handleAll (H := Sample.externals) [(Sample.env0, PostLogout)]
      (set_signals Sample.booted
         (signals Sample.booted ++
          [mkSignal 34%N (Some "hold") None Premium 1700000004000 2%N])) in
  exists listed,
    handle (H := Sample.externals) (mkEnv 1700000009000 40%N "salt")
           (GetSignals (Sample.bearer Sample.root) None) later
      = (mkResponse 200 (BSignals listed), later) /\
    ~ exists v, v ∈ listed /\ sv_id v = 34%N.
Proof.
  destruct (X20_signal_lifecycle (H := Sample.externals)
              (mkEnv 1700000004000 34%N "salt") (Sample.bearer Sample.root)
              Sample.root (Some "hold") None "premium" Sample.booted)
    as [_ Hok].
  destruct (Hok Premium) as [_ Hlater].
  - right. split; reflexivity.
  - exact Sample_booted_reachable.
  - vm_compute. reflexivity.
  - reflexivity.
  - intros v Hv. rewrite Sample_booted in Hv. inversion Hv.
  - destruct (Hlater [(Sample.env0, PostLogout)]
                (mkEnv 1700000009000 40%N "salt")
                (Sample.bearer Sample.root) Sample.root)
      as (listed & Hrun & Hiff & _).
    + vm_compute. reflexivity.
    + exists listed. split; [exact Hrun|].
      intros Hshown. apply Hiff in Hshown as [Hp|Ht]; discriminate.
Defined.

(** ** Tokens over time *)

Section token_lifetime.
Context `{Externals}.

Hypothesis jws_verify_sign :
  forall p secret, jws_verify (jws_sign p secret) secret = Some p.
Hypothesis jws_sign_nonempty :
  forall p secret, jws_sign p secret <> EmptyString.

(** X21: nothing revokes a token.  A token issued for a stored user keeps
    resolving to that same user record after any sequence of further
    requests (logouts, logins, signups, posts, likes, comments), as long
    as it is presented before its expiry. *)
Theorem X21_token_survives_requests issued uid user presented reqs st :
  findUserById uid (users st) = Some user ->
  presented / 1000 < issued / 1000 + 86400 ->
  authMiddleware presented (Some ("Bearer " +:+ jwt_sign issued uid))
                 (handleAll reqs st)
    = inr user.
Proof.
  intros Hfind Hwin.
  rewrite authMiddleware_bearer by apply jws_sign_nonempty.
  rewrite (jwt_verify_sign jws_verify_sign) by done. simpl.
  destruct (handleAll_store_kept reqs st) as (Hprefix & _ & _).
  by rewrite (findUserById_prefix uid (users st) _ user Hprefix Hfind).
Qed.

End token_lifetime.

Lemma X21_token_survives_requests_witness :
  authMiddleware (H := Sample.externals) 1700000060000
      (Sample.bearer Sample.alice)
      (handleAll (H := Sample.externals)
         [(Sample.env0, PostLogout);
          (mkEnv 1700000030000 9%N "salt",
           PostUserSignup "b@x.com" "abcdef" None)]
         Sample.store1)
    = inr Sample.alice.
Proof.
  apply (X21_token_survives_requests (H := Sample.externals)
           Sample_jws_verify_sign Sample_jws_sign_nonempty
           1700000000000 1%N Sample.alice 1700000060000).
  - vm_compute. reflexivity.
  - vm_compute. reflexivity.
Defined.

(** ** Validation *)

(** X22: validation comes first and reports every field.  A signup or a
    login whose payload breaks a field rule is answered 400 with one entry
    per broken rule, the address before the password, without the store
    being consulted or changed: the answer is the same whatever the store
    holds, so it tells nothing about which addresses are taken. *)
Theorem X22_validation_first `{Externals} env email password isPremium st :
  (isEmail email = false \/ (String.length password < 6)%nat ->
   let errors :=
     (if isEmail email then [] else [mkFieldError "email" "Invalid email"])
     ++
     (if decide (String.length password < 6)%nat
      then [mkFieldError "password"
                         "Password must be at least 6 characters"]
      else []) in
   userSignup env email password isPremium st
     = (mkResponse 400 (BErrors errors), st) /\
   adminSignup env email password st
     = (mkResponse 400 (BErrors errors), st)) /\
  (isEmail email = false \/ password = EmptyString ->
   let errors :=
     (if isEmail email then [] else [mkFieldError "email" "Invalid email"])
     ++
     (if decide (password = EmptyString)
      then [mkFieldError "password" "Password is required"]
      else []) in
   userLogin env email password st
     = (mkResponse 400 (BErrors errors), st) /\
   adminLogin env email password st
     = (mkResponse 400 (BErrors errors), st)).
Proof.
  split.
  - intros Hbad. simpl.
    unfold userSignup, adminSignup, validateSignup, isLength_min.
    destruct (isEmail email);
      destruct (Nat.leb_spec 6 (String.length password)) as [Hle|Hlt];
      case_decide; try lia; simpl; try done;
      destruct Hbad as [Hbad|Hbad]; first [done|lia].
  - intros Hbad. simpl.
    unfold userLogin, adminLogin, validateLogin.
    destruct (isEmail email); destruct password as [|c password];
      case_decide; simpl; try done; by destruct Hbad.
Qed.

Lemma X22_validation_first_witness :
  userSignup (H := Sample.externals) Sample.env0 "not-an-address" "abc" None
             Sample.store1
    = (mkResponse 400
         (BErrors [mkFieldError "email" "Invalid email";
                   mkFieldError "password"
                                "Password must be at least 6 characters"]),
       Sample.store1).
Proof.
  destruct (X22_validation_first (H := Sample.externals) Sample.env0
              "not-an-address" "abc" None Sample.store1) as [Hsignup _].
  destruct Hsignup as [Huser _]; [left; reflexivity|].
  exact Huser.
Defined.
